(** * github-roadmap-api: task extraction and issue fan-out

    A shallow embedding of the upload controller's two core functions,
    [extractTasksFromText] and [createGitHubIssues], together with the
    fragments of JavaScript they rely on: UTF-16 strings, [trim], [split],
    backtracking regular expressions, indexed [filter], object literals and
    [try]/[catch] around an awaited client call. *)

From Stdlib Require Import List NArith ZArith Bool Lia String Ascii.
From Stdlib Require Import Floats.SpecFloat.
From Stdlib Require Import DecimalString.
Import ListNotations.

Set Implicit Arguments.

(** ** JavaScript strings

    A JavaScript string is a sequence of UTF-16 code units; [length],
    [substring], [indexOf] and the regular expressions below (no [u] flag)
    all work on code units.  A code unit is kept as an [N]. *)

Module JsStr.

Definition code_unit := N.
Definition jsstring := list code_unit.

(** An ASCII literal of the source, as code units. *)
Definition lit (s : string) : jsstring :=
  map N_of_ascii (list_ascii_of_string s).

Definition mem (c : code_unit) (l : list N) : bool := existsb (N.eqb c) l.

(** ECMAScript WhiteSpace: TAB, VT, FF, SP, NBSP, ZWNBSP and category Zs. *)
Definition isWhiteSpace (c : code_unit) : bool :=
  mem c [9; 11; 12; 32; 160; 5760; 8239; 8287; 12288; 65279]%N
  || ((8192 <=? c) && (c <=? 8202))%N.

(** ECMAScript LineTerminator: LF, CR, LS, PS. *)
Definition isLineTerminator (c : code_unit) : bool :=
  mem c [10; 13; 8232; 8233]%N.

(** What [String.prototype.trim] strips and what [\s] matches. *)
Definition isSpace (c : code_unit) : bool :=
  isWhiteSpace c || isLineTerminator c.

(** [\d] *)
Definition isDigit (c : code_unit) : bool := ((48 <=? c) && (c <=? 57))%N.

(** [.] without the [s] flag *)
Definition isDot (c : code_unit) : bool := negb (isLineTerminator c).

Definition unit_is (x : N) (c : code_unit) : bool := N.eqb c x.

Definition LF : code_unit := 10%N.
Definition FULL_STOP : code_unit := 46%N.
Definition HYPHEN : code_unit := 45%N.
Definition ASTERISK : code_unit := 42%N.
Definition BULLET : code_unit := 8226%N.
Definition COLON : code_unit := 58%N.

Fixpoint eqb (a b : jsstring) : bool :=
  match a, b with
  | [], [] => true
  | x :: a', y :: b' => N.eqb x y && eqb a' b'
  | _, _ => false
  end.

Fixpoint trimStart (s : jsstring) : jsstring :=
  match s with
  | c :: s' => if isSpace c then trimStart s' else s
  | [] => []
  end.

Definition trimEnd (s : jsstring) : jsstring := rev (trimStart (rev s)).

Definition trim (s : jsstring) : jsstring := trimEnd (trimStart s).

(** [s.split(sep)] for a one-unit separator: never the empty array. *)
Fixpoint split (sep : code_unit) (s : jsstring) : list jsstring :=
  match s with
  | [] => [[]]
  | c :: s' =>
      if N.eqb c sep then [] :: split sep s'
      else match split sep s' with
           | piece :: pieces => (c :: piece) :: pieces
           | [] => [[c]]
           end
  end.

(** [s.endsWith(c)] for a one-unit argument. *)
Definition endsWith (c : code_unit) (s : jsstring) : bool :=
  match rev s with
  | x :: _ => N.eqb x c
  | [] => false
  end.

(** [s.substring(0, n)] *)
Definition substring0 (n : nat) (s : jsstring) : jsstring := firstn n s.

Definition nonempty (s : jsstring) : bool :=
  match s with [] => false | _ :: _ => true end.

(** A string with no white space at either end. *)
Definition trimmed (s : jsstring) : Prop :=
  (forall c s', s = c :: s' -> isSpace c = false) /\
  (forall c s', s = s' ++ [c] -> isSpace c = false).

End JsStr.
Import JsStr.

(** ** Regular expressions

    The fragment the controller uses: anchors, one-unit classes, greedy
    [*] and [+] over a class, one capture group, concatenation.  The matcher
    is the backtracking one of the language: a quantifier first takes as
    many units as it can and gives them back one at a time when the rest of
    the pattern fails. *)

Module Regex.

Inductive regex : Type :=
| Bol                                  (* ^ *)
| Eol                                  (* $ *)
| Cls (p : code_unit -> bool)          (* one unit of a class *)
| Star (p : code_unit -> bool)         (* class*  *)
| Plus (p : code_unit -> bool)         (* class+  *)
| Group (r : regex)                    (* ( r ), capture 1 *)
| Seq (r1 r2 : regex).

Record mstate : Type := MState {
  idx : nat;                    (* units consumed so far *)
  rest : jsstring;              (* input still to read *)
  grp1 : option jsstring        (* capture 1, when the group took part *)
}.

Definition cont := mstate -> option mstate.

Fixpoint greedy (p : code_unit -> bool) (k : cont) (i : nat)
    (g : option jsstring) (s : jsstring) : option mstate :=
  match s with
  | c :: s' =>
      if p c then
        match greedy p k (S i) g s' with
        | Some m => Some m
        | None => k (MState i s g)
        end
      else k (MState i s g)
  | [] => k (MState i [] g)
  end.

Fixpoint rmatch (r : regex) (k : cont) (m : mstate) : option mstate :=
  match r with
  | Bol => if Nat.eqb (idx m) 0 then k m else None
  | Eol => match rest m with [] => k m | _ :: _ => None end
  | Cls p =>
      match rest m with
      | c :: s' => if p c then k (MState (S (idx m)) s' (grp1 m)) else None
      | [] => None
      end
  | Star p => greedy p k (idx m) (grp1 m) (rest m)
  | Plus p =>
      match rest m with
      | c :: s' => if p c then greedy p k (S (idx m)) (grp1 m) s' else None
      | [] => None
      end
  | Group r' =>
      rmatch r'
        (fun m' =>
           k (MState (idx m') (rest m')
                (Some (firstn (idx m' - idx m) (rest m)))))
        m
  | Seq r1 r2 => rmatch r1 (rmatch r2 k) m
  end.

(** The search of [RegExp.prototype.exec] without the [g] or [y] flag: try
    every start index from 0 on, leftmost match wins. *)
Fixpoint search (r : regex) (i : nat) (s : jsstring) : option mstate :=
  match rmatch r Some (MState i s None) with
  | Some m => Some m
  | None =>
      match s with
      | [] => None
      | _ :: s' => search r (S i) s'
      end
  end.

(** [s.match(r)]: [None] is JavaScript's [null]. *)
Definition str_match (s : jsstring) (r : regex) : option mstate :=
  search r 0 s.

Declare Scope regex_scope.
Delimit Scope regex_scope with re.
Infix ">>" := Seq (at level 61, right associativity) : regex_scope.

(** Whether the pattern contains the capture group. *)
Fixpoint has_group (r : regex) : bool :=
  match r with
  | Group _ => true
  | Seq r1 r2 => has_group r1 || has_group r2
  | _ => false
  end.

(** The common tail [(.+)$] of the three patterns. *)
Definition tail_re : regex := (Group (Plus isDot) >> Eol)%re.

End Regex.
Import Regex.

(** ** JavaScript values *)

#[warnings="-register-all"]
Inductive JSValue : Type :=
| JSUndefined
| JSNull
| JSBoolean (b : bool)
| JSNumber (x : spec_float)
| JSBigInt (z : Z)
| JSString (s : jsstring)
| JSSymbol (id : nat)
| JSFunction (id : nat)
| JSArray (elems : list JSValue)
| JSObject (props : list (string * JSValue)).

(** An object literal: its own properties, in insertion order. *)
Definition JSProps := list (string * JSValue).

Definition typeof (v : JSValue) : string :=
  match v with
  | JSUndefined => "undefined"
  | JSNull => "object"
  | JSBoolean _ => "boolean"
  | JSNumber _ => "number"
  | JSBigInt _ => "bigint"
  | JSString _ => "string"
  | JSSymbol _ => "symbol"
  | JSFunction _ => "function"
  | JSArray _ => "object"
  | JSObject _ => "object"
  end.

(** ToBoolean *)
Definition truthy (v : JSValue) : bool :=
  match v with
  | JSUndefined | JSNull => false
  | JSBoolean b => b
  | JSNumber (S754_zero _) | JSNumber S754_nan => false
  | JSNumber _ => true
  | JSBigInt z => negb (Z.eqb z 0)
  | JSString s => nonempty s
  | JSSymbol _ | JSFunction _ | JSArray _ | JSObject _ => true
  end.

Definition isArray (v : JSValue) : bool :=
  match v with JSArray _ => true | _ => false end.

(** [o.name] on an object literal: the value of the own property, or
    [None] where JavaScript gives [undefined] because there is none. *)
Fixpoint getProp (name : string) (o : JSProps) : option JSValue :=
  match o with
  | [] => None
  | (n, v) :: o' => if String.eqb n name then Some v else getProp name o'
  end.

Definition hasProp (name : string) (o : JSProps) : bool :=
  match getProp name o with Some _ => true | None => false end.

(** A property of an object literal, [name: value]. *)
Definition prop (name : string) (v : JSValue) : string * JSValue := (name, v).

(** ** Completions: a value, or a thrown error object *)

Record JSError : Type := { message : jsstring }.

Inductive completion (A : Type) : Type :=
| Normal (a : A)
| Throw (error : JSError).
Arguments Normal {A} a.
Arguments Throw {A} error.

Definition bind {A B} (c : completion A) (f : A -> completion B)
  : completion B :=
  match c with
  | Normal a => f a
  | Throw error => Throw error
  end.

Notation "x <- c ;; k" := (bind c (fun x => k))
  (at level 62, c at next level, right associativity).

Fixpoint foldM {A B} (f : B -> A -> completion B) (l : list A) (b : B)
  : completion B :=
  match l with
  | [] => Normal b
  | a :: l' => b' <- f b a ;; foldM f l' b'
  end.

(** ** extractTasksFromText *)

Module Extract.

(** [/^\d+\.\s+(.+)$/] *)
Definition numberedRe : regex :=
  (Bol >> Plus isDigit >> Cls (unit_is FULL_STOP) >> Plus isSpace >>
   Group (Plus isDot) >> Eol)%re.

(** [/^[•\-*]\s+(.+)$/] *)
Definition isBulletGlyph (c : code_unit) : bool :=
  unit_is BULLET c || unit_is HYPHEN c || unit_is ASTERISK c.

Definition bulletRe : regex :=
  (Bol >> Cls isBulletGlyph >> Plus isSpace >> Group (Plus isDot) >> Eol)%re.

(** [/^-\s*(.+)$/] *)
Definition dashRe : regex :=
  (Bol >> Cls (unit_is HYPHEN) >> Star isSpace >> Group (Plus isDot) >> Eol)%re.

(** [m[1].trim()]: element 1 of a match array is [undefined] when the
    group did not take part, and calling a method on it throws. *)
Definition group1_trim (m : mstate) : completion jsstring :=
  match grp1 m with
  | Some g => Normal (trim g)
  | None =>
      Throw {| message := lit "Cannot read properties of undefined" |}
  end.

Definition push (tasks : list jsstring) (t : jsstring) : list jsstring :=
  tasks ++ [t].

(** One turn of the [for (const line of lines)] loop.  [rule3] says
    whether the leading-dash rule is present; the controller has it. *)
Definition for_line (rule3 : bool) (tasks : list jsstring)
    (line : jsstring) : completion (list jsstring) :=
  match str_match line numberedRe with
  | Some numberedMatch =>
      t <- group1_trim numberedMatch ;; Normal (push tasks t)
  | None =>
  match str_match line bulletRe with
  | Some bulletMatch =>
      t <- group1_trim bulletMatch ;; Normal (push tasks t)
  | None =>
  match (if rule3 then str_match line dashRe else None) with
  | Some dashMatch =>
      t <- group1_trim dashMatch ;; Normal (push tasks t)
  | None =>
      if (3 <? List.length line) && negb (endsWith COLON line)
      then Normal (push tasks line)
      else Normal tasks
  end end end.

(** [text.split('\n').map(line => line.trim()).filter(line => line)] *)
Definition lines_of (text : jsstring) : list jsstring :=
  filter nonempty (map trim (split LF text)).

(** [self.indexOf(x)], with strict equality on strings; -1 when absent. *)
Fixpoint indexOf_from (i : nat) (self : list jsstring) (x : jsstring) : Z :=
  match self with
  | [] => (-1)%Z
  | y :: self' =>
      if JsStr.eqb y x then Z.of_nat i else indexOf_from (S i) self' x
  end.

Definition indexOf (self : list jsstring) (x : jsstring) : Z :=
  indexOf_from 0 self x.

(** [self.filter((x, index, self) => f x index self)] *)
Fixpoint filter_from {A} (f : A -> nat -> list A -> bool) (self : list A)
    (index : nat) (l : list A) : list A :=
  match l with
  | [] => []
  | x :: l' =>
      if f x index self then x :: filter_from f self (S index) l'
      else filter_from f self (S index) l'
  end.

Definition filter_indexed {A} (f : A -> nat -> list A -> bool)
    (self : list A) : list A :=
  filter_from f self 0 self.

Definition first_nonempty (task : jsstring) (index : nat)
    (self : list jsstring) : bool :=
  (0 <? List.length task) && Z.eqb (indexOf self task) (Z.of_nat index).

Definition extract (rule3 : bool) (text : JSValue)
  : completion (list jsstring) :=
  if negb (truthy text) || negb (String.eqb (typeof text) "string")
  then Normal []
  else
    match text with
    | JSString s =>
        tasks <- foldM (for_line rule3) (lines_of s) [] ;;
        Normal (filter_indexed first_nonempty tasks)
    | _ => Normal []
    end.

Definition extractTasksFromText : JSValue -> completion (list jsstring) :=
  extract true.

(** The same function with the leading-dash rule taken out. *)
Definition extractTasksFromText_without_rule3
  : JSValue -> completion (list jsstring) :=
  extract false.

End Extract.
Import Extract.

(** ** createGitHubIssues *)

Module Fanout.

(** What [octokit.issues.create] resolves with: [response.data] is the
    created issue as the REST API returns it. *)
Record IssueData : Type := {
  number : spec_float;
  title : jsstring;
  html_url : jsstring
}.

Record Response : Type := { data : IssueData }.

(** An awaited promise either yields its value or throws its reason.
    Octokit rejects with an [Error] object, whose [message] the [catch]
    block reads.  The two [console] calls of the loop write to the log
    only and are left out. *)
Inductive settled : Type :=
| Fulfilled (response : Response)
| Rejected (error : JSError).

(** The client: [issues.create] reads and changes a world [W] (the remote
    repository, the network, rate limits), so that it may answer the same
    request differently from one call to the next. *)
Record Octokit (W : Type) : Type := {
  issues_create : JSProps -> W -> settled * W
}.

(** [options]; a property that is absent reads as [JSUndefined]. *)
Record Options : Type := {
  opt_labels : JSValue;
  opt_assignee : JSValue
}.

(** A destructuring default: used when the property is [undefined]. *)
Definition or_default (v d : JSValue) : JSValue :=
  match v with JSUndefined => d | _ => v end.

Definition issueParams (owner repo labels assignee : JSValue)
    (task : jsstring) : JSProps :=
  [ prop "owner" owner;
    prop "repo" repo;
    prop "title" (JSString (substring0 100 task));
    prop "body" (JSString (if 100 <? List.length task then task
                           else lit "Task: " ++ task));
    prop "labels" (if isArray labels then labels else JSArray []) ]
  ++ (if truthy assignee then [ prop "assignees" (JSArray [assignee]) ]
      else []).

Definition created_record (response : Response) : JSProps :=
  [ prop "number" (JSNumber (number (data response)));
    prop "title" (JSString (title (data response)));
    prop "url" (JSString (html_url (data response))) ].

Definition failed_record (task : jsstring) (error : JSError) : JSProps :=
  [ prop "task" (JSString task);
    prop "error" (JSString (message error)) ].

Section Loop.

Variable W : Type.
Variable octokit : Octokit W.
Variables owner repo : JSValue.
Variables labels assignee : JSValue.

(** The [try] block: a rejected call throws before anything is pushed. *)
Definition try_block (task : jsstring) (createdIssues : list JSProps)
    (w : W) : completion (list JSProps) * W :=
  let params := issueParams owner repo labels assignee task in
  match issues_create octokit params w with
  | (Fulfilled response, w') =>
      (Normal (createdIssues ++ [created_record response]), w')
  | (Rejected error, w') => (Throw error, w')
  end.

(** One turn of [for (const task of tasks)]: [try] and its [catch]. *)
Definition for_task (st : list JSProps * W) (task : jsstring)
  : list JSProps * W :=
  let (createdIssues, w) := st in
  match try_block task createdIssues w with
  | (Normal createdIssues', w') => (createdIssues', w')
  | (Throw error, w') => (createdIssues ++ [failed_record task error], w')
  end.

End Loop.

Definition createGitHubIssues {W} (octokit : Octokit W)
    (owner repo : JSValue) (tasks : list jsstring) (options : Options)
    (w : W) : list JSProps * W :=
  let labels := or_default (opt_labels options) (JSArray []) in
  let assignee := or_default (opt_assignee options) JSNull in
  fold_left (for_task octokit owner repo labels assignee) tasks ([], w).

(** The client on its own: the answers it gives to a sequence of
    requests made one after the other. *)
Fixpoint answers {W} (octokit : Octokit W) (requests : list JSProps)
    (w : W) : list settled * W :=
  match requests with
  | [] => ([], w)
  | request :: requests' =>
      let (a, w') := issues_create octokit request w in
      let (rest_answers, w'') := answers octokit requests' w' in
      (a :: rest_answers, w'')
  end.

(** A client that also keeps the requests it was sent, oldest first. *)
Definition recording {W} (octokit : Octokit W) : Octokit (W * list JSProps) :=
  {| issues_create := fun request '(w, seen) =>
       let (a, w') := issues_create octokit request w in
       (a, (w', seen ++ [request])) |}.

Definition is_failure_record (r : JSProps) : bool := hasProp "error" r.

Definition is_success_record (r : JSProps) : bool :=
  hasProp "number" r && hasProp "title" r && hasProp "url" r
  && negb (hasProp "error" r).

Definition count {A} (f : A -> bool) (l : list A) : nat :=
  List.length (filter f l).

End Fanout.
Import Fanout.

(** ** Notions used to state the properties *)

Module Notions.

Definition olist {A} (o : option A) : list A :=
  match o with Some a => [a] | None => [] end.

(** The task a line contributes, read off one turn of the loop. *)
Definition produced (rule3 : bool) (line : jsstring) : option jsstring :=
  match for_line rule3 [] line with
  | Normal [t] => Some t
  | _ => None
  end.

Definition raw_tasks (rule3 : bool) (lines : list jsstring) : list jsstring :=
  flat_map (fun line => olist (produced rule3 line)) lines.

Definition dedup (raw : list jsstring) : list jsstring :=
  filter_indexed first_nonempty raw.

(** Line number [p] (from the top, blank lines dropped) pushes task [t]. *)
Definition produces (lines : list jsstring) (p : nat) (t : jsstring) : Prop :=
  exists line, nth_error lines p = Some line /\ produced true line = Some t.

(** Line [p] is the first one that pushes [t]. *)
Definition first_producer (lines : list jsstring) (t : jsstring) (p : nat)
  : Prop :=
  produces lines p t /\ forall p', p' < p -> ~ produces lines p' t.

(** A line that starts with a hyphen directly followed by a unit that is
    not white space, as in [-item]. *)
Definition hyphen_then_nonspace (line : jsstring) : bool :=
  match line with
  | c :: c2 :: _ => unit_is HYPHEN c && negb (isSpace c2)
  | _ => false
  end.

Definition text_lines (text : JSValue) : list jsstring :=
  match text with
  | JSString s => lines_of s
  | _ => []
  end.

Definition spec_sample : jsstring :=
  lit "1. Buy milk" ++ [LF] ++ lit "- Call Bob" ++ [LF]
  ++ lit "Summary:" ++ [LF] ++ lit "Short".

Definition is_rejected (a : settled) : bool :=
  match a with Rejected _ => true | Fulfilled _ => false end.

(** The record the loop pushes for a task, given the client's answer. *)
Definition record_of (task : jsstring) (a : settled) : JSProps :=
  match a with
  | Fulfilled response => created_record response
  | Rejected error => failed_record task error
  end.

Definition records (tasks : list jsstring) (outcome : list settled)
  : list JSProps :=
  map (fun ta => record_of (fst ta) (snd ta)) (combine tasks outcome).

Definition labels_of (options : Options) : JSValue :=
  or_default (opt_labels options) (JSArray []).

Definition assignee_of (options : Options) : JSValue :=
  or_default (opt_assignee options) JSNull.

(** The requests of one fan-out, one per task. *)
Definition requests_for (owner repo : JSValue) (options : Options)
    (tasks : list jsstring) : list JSProps :=
  map (issueParams owner repo (labels_of options) (assignee_of options))
      tasks.

(** The client answers the whole batch with a rejection at index [k] and
    nowhere else. *)
Definition rejected_exactly_at (k : nat) (outcome : list settled) : Prop :=
  k < List.length outcome /\
  forall j a, nth_error outcome j = Some a -> is_rejected a = Nat.eqb j k.

(** A client for the examples: its world counts the calls made so far;
    the call numbered 1 (the second) is rejected, every other call creates
    the issue and echoes the title it was sent. *)
Definition demo_title (request : JSProps) : jsstring :=
  match getProp "title" request with
  | Some (JSString t) => t
  | _ => []
  end.

Definition demo_client : Octokit nat :=
  {| issues_create := fun request calls =>
       (if Nat.eqb calls 1
        then Rejected {| message := lit "API rate limit exceeded" |}
        else Fulfilled
               {| data := {| number := S754_finite false
                                         (Pos.of_succ_nat calls) 0;
                             title := demo_title request;
                             html_url := lit "https://github.com/o/r/issues"
                          |} |},
        S calls) |}.

Definition demo_options : Options :=
  {| opt_labels := JSUndefined; opt_assignee := JSUndefined |}.

Definition demo_owner : JSValue := JSString (lit "o").
Definition demo_repo : JSValue := JSString (lit "r").

Definition demo_tasks : list jsstring :=
  [lit "Buy milk"; lit "Call Bob"; lit "Short"].

End Notions.
Import Notions.

(** ** parseWordDocument and uploadFile *)

Module Upload.

(** A JavaScript number that is a non-negative integer, as [length] and
    the status literals are. *)
Definition num_of_nat (n : nat) : spec_float :=
  match n with
  | 0 => S754_zero false
  | S _ => S754_finite false (Pos.of_nat n) 0
  end.

(** Number-to-string conversion of such a number: plain decimal. *)
Definition decimal (n : nat) : jsstring :=
  lit (NilEmpty.string_of_uint (Nat.to_uint n)).

(** [a || b] *)
Definition js_or (a b : JSValue) : JSValue := if truthy a then a else b.

(** [o.name]: [undefined] where the object has no such property. *)
Definition js_get (name : string) (o : JSProps) : JSValue :=
  match getProp name o with Some v => v | None => JSUndefined end.

(** [arr.includes(v)] on an array of strings. *)
Definition includes (arr : list jsstring) (v : JSValue) : bool :=
  match v with
  | JSString s => existsb (JsStr.eqb s) arr
  | _ => false
  end.

Definition Buffer := list N.

(** What [mammoth.extractRawText] is given: [{buffer}] or [{arrayBuffer}]. *)
Inductive MammothInput : Type :=
| FromBuffer (buffer : Buffer)
| FromArrayBuffer (arrayBuffer : Buffer).

(** What it resolves with; [messages] only feeds a console warning. *)
Record MammothResult : Type := {
  value : jsstring;
  messages : JSValue
}.

(** The collaborators the controller reaches: the file system, mammoth,
    the Octokit constructor and the process environment.  Each call reads
    and changes the world [W]; an awaited call that rejects is a [Throw]. *)
Record Platform (W : Type) : Type := {
  fs_readFile : JSValue -> W -> completion Buffer * W;
  fs_unlink : JSValue -> W -> completion unit * W;
  mammoth_extractRawText : MammothInput -> W -> completion MammothResult * W;
  new_Octokit : JSValue -> Octokit W;
  env_GITHUB_TOKEN : JSValue
}.

Record ParsedDocument : Type := {
  text : jsstring;
  tasks : list jsstring
}.

Section Controller.

Variable W : Type.
Variable platform : Platform W.

(** [throw new Error(`Failed to parse Word document: ${error.message}`)] *)
Definition parse_failure (error : JSError) : JSError :=
  {| message := lit "Failed to parse Word document: " ++ message error |}.

Definition parseWordDocument (filePath : JSValue) (w : W)
  : completion ParsedDocument * W :=
  match fs_readFile platform filePath w with
  | (Throw error, w1) => (Throw (parse_failure error), w1)
  | (Normal fileBuffer, w1) =>
      match mammoth_extractRawText platform (FromBuffer fileBuffer) w1 with
      | (Throw error, w2) => (Throw (parse_failure error), w2)
      | (Normal result, w2) =>
          let text := if nonempty (value result) then value result
                      else lit "" in
          match extractTasksFromText (JSString text) with
          | Throw error => (Throw (parse_failure error), w2)
          | Normal tasks => (Normal {| text := text; tasks := tasks |}, w2)
          end
      end
  end.

(** [req]: the file multer stored, the token header and the form fields.
    A field that is absent reads as [JSUndefined]. *)
Record UploadedFile : Type := {
  mimetype : JSValue;
  path : JSValue
}.

Record Request : Type := {
  file : option UploadedFile;
  header_x_github_token : JSValue;
  body_owner : JSValue;
  body_repo : JSValue;
  body_labels : JSValue;
  body_assignee : JSValue
}.

(** [res.status(status).json(json)] *)
Record Reply : Type := {
  status : nat;
  json : JSProps
}.

Definition failure (status : nat) (error : string) : Reply :=
  {| status := status;
     json := [ prop "success" (JSBoolean false);
               prop "error" (JSString (lit error)) ] |}.

Definition allowedMimes : list jsstring :=
  [ lit "application/vnd.openxmlformats-officedocument.wordprocessingml.document";
    lit "application/msword" ].

(** [createdIssues.filter(i => !i.error).length] *)
Definition issuesCreated (createdIssues : list JSProps) : nat :=
  List.length
    (filter (fun i => negb (truthy (js_get "error" i))) createdIssues).

(** [try { await fs.unlink(p) } catch (unlinkError) { console.warn(...) }] *)
Definition unlink_quietly (p : JSValue) (w : W) : W :=
  snd (fs_unlink platform p w).

Definition created_reply (tasks : list jsstring)
    (createdIssues : list JSProps) : Reply :=
  {| status := 201;
     json :=
       [ prop "success" (JSBoolean true);
         prop "message"
           (JSString
              (lit "Successfully processed document and created "
               ++ decimal (issuesCreated createdIssues) ++ lit " issues"));
         prop "data"
           (JSObject
              [ prop "tasksExtracted"
                  (JSNumber (num_of_nat (List.length tasks)));
                prop "issuesCreated"
                  (JSNumber (num_of_nat (issuesCreated createdIssues)));
                prop "details" (JSArray (map JSObject createdIssues)) ]) ] |}.

(** The outer [catch]. *)
Definition upload_catch (req : Request) (error : JSError) (w : W)
  : Reply * W :=
  let w' :=
    match file req with
    | Some f => if truthy (path f) then unlink_quietly (path f) w else w
    | None => w
    end in
  ({| status := 500;
      json :=
        [ prop "success" (JSBoolean false);
          prop "error"
            (js_or (JSString (message error))
               (JSString (lit "An error occurred during file processing")))
        ] |},
   w').

Definition uploadFile (req : Request) (w : W) : Reply * W :=
  match file req with
  | None => (failure 400 "No file uploaded", w)
  | Some req_file =>
      if negb (includes allowedMimes (mimetype req_file)) then
        (failure 400
           "Invalid file type. Please upload a Word document (.docx or .doc)",
         w)
      else
        let filePath := path req_file in
        match parseWordDocument filePath w with
        | (Throw error, w1) => upload_catch req error w1
        | (Normal parsed, w1) =>
            if Nat.eqb (List.length (tasks parsed)) 0 then
              (failure 400 "No tasks could be extracted from the document",
               w1)
            else
              let githubToken :=
                js_or (header_x_github_token req)
                      (env_GITHUB_TOKEN platform) in
              if negb (truthy githubToken) then
                (failure 401 "GitHub token not provided", w1)
              else
                let octokit := new_Octokit platform githubToken in
                if negb (truthy (body_owner req))
                   || negb (truthy (body_repo req)) then
                  (failure 400 "Repository owner and name are required", w1)
                else
                  let (createdIssues, w2) :=
                    createGitHubIssues octokit (body_owner req)
                      (body_repo req) (tasks parsed)
                      {| opt_labels := body_labels req;
                         opt_assignee := body_assignee req |} w1 in
                  let w3 := unlink_quietly filePath w2 in
                  (created_reply (tasks parsed) createdIssues, w3)
        end
  end.

End Controller.

(** *** Observing the calls

    The same platform, with every call it receives also written to a log
    kept beside the world. *)

Inductive Event : Type :=
| EvReadFile (p : JSValue)
| EvExtractRawText (input : MammothInput)
| EvUnlink (p : JSValue)
| EvIssuesCreate (auth : JSValue) (request : JSProps).

Definition logged {W A} (e : Event) (r : A * W) (log : list Event)
  : A * (W * list Event) :=
  (fst r, (snd r, log ++ [e])).

Definition traced {W} (platform : Platform W) : Platform (W * list Event) :=
  {| fs_readFile := fun p '(w, log) =>
       logged (EvReadFile p) (fs_readFile platform p w) log;
     fs_unlink := fun p '(w, log) =>
       logged (EvUnlink p) (fs_unlink platform p w) log;
     mammoth_extractRawText := fun input '(w, log) =>
       logged (EvExtractRawText input)
         (mammoth_extractRawText platform input w) log;
     new_Octokit := fun auth =>
       {| issues_create := fun request '(w, log) =>
            logged (EvIssuesCreate auth request)
              (issues_create (new_Octokit platform auth) request w) log |};
     env_GITHUB_TOKEN := env_GITHUB_TOKEN platform |}.

Definition unlinked (log : list Event) : list JSValue :=
  flat_map (fun e => match e with EvUnlink p => [p] | _ => [] end) log.

Definition issues_requested (log : list Event) : list (JSValue * JSProps) :=
  flat_map (fun e => match e with
                     | EvIssuesCreate auth request => [(auth, request)]
                     | _ => []
                     end) log.

End Upload.

(** ** errorHandler *)

Module ErrorHandler.

Import Upload.




End ErrorHandler.

(** ** WordParser: extractStructure and _isHeading *)

Module WordParser.

Import Upload.

(** [/^\d+\.\s/] *)
Definition numberedHeadingRe : regex :=
  (Bol >> Plus isDigit >> Cls (unit_is FULL_STOP) >> Cls isSpace)%re.

(** [r.test(s)] *)
Definition test (r : regex) (s : jsstring) : bool :=
  match str_match s r with Some _ => true | None => false end.



Section Parser.

(** [String.prototype.toUpperCase], the Unicode upper-casing of the
    engine, is taken as given. *)
Variable toUpperCase : jsstring -> jsstring.

Definition _isHeading (line : jsstring) : bool :=
  let isBoldPattern :=
    (List.length line <? 100)
    && JsStr.eqb line (toUpperCase line)
    && (2 <? List.length line) in
  let isNumberedHeading :=
    test numberedHeadingRe line && (List.length line <? 100) in
  isBoldPattern || isNumberedHeading.



Variable W : Type.
Variable platform : Platform W.


End Parser.

End WordParser.

(** ** Further notions used to state the properties *)

Module MoreNotions.


(** Upper-casing of the letters a to z only, for the examples. *)
Definition ascii_upper (s : jsstring) : jsstring :=
  map (fun c => if ((97 <=? c) && (c <=? 122))%N then (c - 32)%N else c) s.

(** A platform for the examples: the file system holds one document, read
    under any path; the world counts the issues.create calls. *)
Definition demo_platform (document : jsstring) : Upload.Platform nat :=
  {| Upload.fs_readFile := fun _ w => (Normal [80; 75]%N, w);
     Upload.fs_unlink := fun _ w => (Normal tt, w);
     Upload.mammoth_extractRawText := fun _ w =>
       (Normal {| Upload.value := document;
                  Upload.messages := JSArray [] |}, w);
     Upload.new_Octokit := fun _ => demo_client;
     Upload.env_GITHUB_TOKEN := JSUndefined |}.

(** A platform whose disk cannot be read. *)
Definition broken_platform : Upload.Platform nat :=
  {| Upload.fs_readFile := fun _ w =>
       (Throw {| message := lit "ENOENT: no such file or directory" |}, w);
     Upload.fs_unlink := fun _ w => (Normal tt, w);
     Upload.mammoth_extractRawText := fun _ w =>
       (Normal {| Upload.value := lit ""; Upload.messages := JSArray [] |},
        w);
     Upload.new_Octokit := fun _ => demo_client;
     Upload.env_GITHUB_TOKEN := JSUndefined |}.

Definition docx_mime : jsstring :=
  lit "application/vnd.openxmlformats-officedocument.wordprocessingml.document".

Definition demo_request : Upload.Request :=
  {| Upload.file :=
       Some {| Upload.mimetype := JSString docx_mime;
               Upload.path := JSString (lit "uploads/a1b2") |};
     Upload.header_x_github_token := JSString (lit "ghp_token");
     Upload.body_owner := demo_owner;
     Upload.body_repo := demo_repo;
     Upload.body_labels := JSUndefined;
     Upload.body_assignee := JSUndefined |}.

(** The reply and the call log of one upload on the traced platform. *)
Definition upload_reply {W} (platform : Upload.Platform W)
    (req : Upload.Request) (w : W) : Upload.Reply :=
  fst (Upload.uploadFile (Upload.traced platform) req (w, [])).

Definition upload_log {W} (platform : Upload.Platform W)
    (req : Upload.Request) (w : W) : list Upload.Event :=
  snd (snd (Upload.uploadFile (Upload.traced platform) req (w, []))).

(** The token the controller authenticates with. *)
Definition upload_token {W} (platform : Upload.Platform W)
    (req : Upload.Request) : JSValue :=
  Upload.js_or (Upload.header_x_github_token req)
               (Upload.env_GITHUB_TOKEN platform).

Definition upload_options (req : Upload.Request) : Options :=
  {| opt_labels := Upload.body_labels req;
     opt_assignee := Upload.body_assignee req |}.




(** The text with every line feed turned into carriage return, line
    feed. *)
Definition CR : code_unit := 13%N.

Fixpoint crlf (s : jsstring) : jsstring :=
  match s with
  | [] => []
  | c :: s' => if N.eqb c LF then CR :: LF :: crlf s' else c :: crlf s'
  end.


End MoreNotions.

(** * Properties *)

Unset Implicit Arguments.

(** ** Strings *)

Module JsStrFacts.

Lemma eqb_eq (a b : jsstring) : JsStr.eqb a b = true <-> a = b.
Proof.
  revert b; induction a as [|x a IH]; intros [|y b]; simpl;
    try (split; [discriminate | congruence]); try tauto.
  rewrite andb_true_iff, N.eqb_eq, IH. split.
  - intros [-> ->]; reflexivity.
  - intros E; injection E; auto.
Qed.

Lemma eqb_refl (a : jsstring) : JsStr.eqb a a = true.
Proof. apply eqb_eq; reflexivity. Qed.

Lemma eqb_neq (a b : jsstring) : JsStr.eqb a b = false <-> a <> b.
Proof.
  rewrite <- eqb_eq. destruct (JsStr.eqb a b); split; congruence.
Qed.

Lemma nonempty_length (s : jsstring) : nonempty s = (0 <? List.length s).
Proof. destruct s; reflexivity. Qed.

Lemma nonempty_true (s : jsstring) : nonempty s = true <-> s <> [].
Proof. destruct s; simpl; split; congruence. Qed.

Lemma trimStart_head (s : jsstring) c s' :
  trimStart s = c :: s' -> isSpace c = false.
Proof.
  induction s as [|x s IH]; simpl; [discriminate|].
  destruct (isSpace x) eqn:E; [exact IH|].
  intros H; injection H as <- _; exact E.
Qed.

Lemma trimStart_suffix (s : jsstring) :
  exists p, s = p ++ trimStart s.
Proof.
  induction s as [|x s [p IH]]; simpl.
  - exists []; reflexivity.
  - destruct (isSpace x).
    + exists (x :: p); simpl; congruence.
    + exists []; reflexivity.
Qed.

Lemma trimEnd_prefix (s : jsstring) :
  exists q, s = trimEnd s ++ q.
Proof.
  unfold trimEnd. destruct (trimStart_suffix (rev s)) as [p E].
  exists (rev p). rewrite <- rev_app_distr, <- E, rev_involutive.
  reflexivity.
Qed.

Lemma trimEnd_last (s : jsstring) c s' :
  trimEnd s = s' ++ [c] -> isSpace c = false.
Proof.
  unfold trimEnd. intros E.
  apply (f_equal (@rev _)) in E.
  rewrite rev_involutive, rev_app_distr in E. simpl in E.
  eapply trimStart_head; exact E.
Qed.

Lemma trim_trimmed (s : jsstring) : trimmed (trim s).
Proof.
  unfold trim. split; intros c s' E.
  - destruct (trimEnd_prefix (trimStart s)) as [q Eq].
    rewrite E in Eq. simpl in Eq.
    eapply trimStart_head; exact Eq.
  - eapply trimEnd_last; exact E.
Qed.

End JsStrFacts.
Import JsStrFacts.

(** ** The matcher *)

Module RegexFacts.

Lemma greedy_inv p k i g s res :
  greedy p k i g s = Some res ->
  exists i' s', k (MState i' s' g) = Some res.
Proof.
  revert i; induction s as [|c s IH]; simpl; intros i H.
  - eauto.
  - destruct (p c); [|eauto].
    destruct (greedy p k (S i) g s) eqn:E; [|eauto].
    injection H as <-. eapply IH; exact E.
Qed.

(** A successful match ran its continuation, and the capture is set by
    then if the pattern has the group or it was set before. *)
Lemma rmatch_inv r : forall k m res,
  rmatch r k m = Some res ->
  exists m', k m' = Some res /\
             (grp1 m <> None -> grp1 m' <> None) /\
             (has_group r = true -> grp1 m' <> None).
Proof.
  induction r as [| |p|p|p|r IH|r1 IH1 r2 IH2]; simpl; intros k m res H.
  - destruct (Nat.eqb (idx m) 0); [|discriminate].
    exists m; repeat split; auto; discriminate.
  - destruct (rest m); [|discriminate].
    exists m; repeat split; auto; discriminate.
  - destruct (rest m) as [|c s']; [discriminate|].
    destruct (p c); [|discriminate].
    eexists; repeat split; [exact H|auto|discriminate].
  - apply greedy_inv in H. destruct H as (i' & s' & H).
    eexists; repeat split; [exact H|auto|discriminate].
  - destruct (rest m) as [|c s0]; [discriminate|].
    destruct (p c); [|discriminate].
    apply greedy_inv in H. destruct H as (i' & s' & H).
    eexists; repeat split; [exact H|auto|discriminate].
  - apply IH in H. destruct H as (m' & H & _ & _).
    eexists; repeat split; [exact H| |]; simpl; discriminate.
  - apply IH1 in H. destruct H as (m1 & H & P1 & G1).
    apply IH2 in H. destruct H as (m2 & H & P2 & G2).
    exists m2; repeat split; auto.
    intros G. apply orb_true_iff in G. destruct G; auto.
Qed.

Lemma search_inv r : forall s i res,
  search r i s = Some res ->
  exists i' s', rmatch r Some (MState i' s' None) = Some res.
Proof.
  induction s as [|c s IH]; simpl; intros i res H.
  - destruct (rmatch r Some (MState i [] None)) eqn:E; [|discriminate].
    injection H as <-; eauto.
  - destruct (rmatch r Some (MState i (c :: s) None)) eqn:E.
    + injection H as <-; eauto.
    + eapply IH; exact H.
Qed.

Lemma str_match_group s r m :
  has_group r = true -> str_match s r = Some m ->
  exists g, grp1 m = Some g.
Proof.
  intros G H. apply search_inv in H. destruct H as (i' & s' & H).
  apply rmatch_inv in H. destruct H as (m' & H & _ & P).
  injection H as ->. specialize (P G).
  destruct (grp1 m); [eauto|congruence].
Qed.

(** An anchored pattern can only match from index 0. *)
Lemma search_anchored_later r : forall s i,
  search (Seq Bol r) (S i) s = None.
Proof.
  induction s as [|c s IH]; intros i; simpl; auto.
Qed.

Lemma str_match_anchored r s :
  str_match s (Seq Bol r) = rmatch r Some (MState 0 s None).
Proof.
  unfold str_match. destruct s as [|c s]; simpl.
  - destruct (rmatch r Some (MState 0 [] None)); reflexivity.
  - destruct (rmatch r Some (MState 0 (c :: s) None)); auto.
    apply search_anchored_later.
Qed.

(** A greedy run in front of a continuation that only accepts the end of
    the input: the whole rest must be in the class. *)
Lemma greedy_to_end p (k : cont) g :
  (forall i c s, k (MState i (c :: s) g) = None) ->
  forall s i,
    greedy p k i g s =
    if forallb p s then k (MState (i + List.length s) [] g) else None.
Proof.
  intros Hk. induction s as [|c s IH]; intros i; simpl.
  - rewrite Nat.add_0_r; reflexivity.
  - destruct (p c); simpl; [|apply Hk].
    rewrite IH, Hk. replace (S i + List.length s) with (i + S (List.length s)) by lia.
    destruct (forallb p s); [|reflexivity].
    destruct (k _); reflexivity.
Qed.

Lemma tail_spec i s g :
  rmatch tail_re Some (MState i s g) =
  if nonempty s && forallb isDot s
  then Some (MState (i + List.length s) [] (Some s))
  else None.
Proof.
  unfold tail_re. cbn -[Nat.sub Nat.add firstn].
  destruct s as [|c s]; [reflexivity|].
  cbn -[Nat.sub Nat.add firstn]. destruct (isDot c); [|reflexivity].
  rewrite greedy_to_end by reflexivity.
  cbn -[Nat.sub Nat.add firstn].
  destruct (forallb isDot s); [|reflexivity].
  replace (S i + List.length s - i) with (List.length (c :: s))
    by (cbn [List.length]; lia).
  rewrite firstn_all. cbn [List.length].
  replace (S i + List.length s) with (i + S (List.length s)) by lia.
  reflexivity.
Qed.

(** When the tail would match after some run of white space, a greedy
    white-space run followed by the tail matches. *)
Lemma greedy_space_tail s : forall i g,
  s <> [] ->
  (forall c s', s = s' ++ [c] -> isSpace c = false) ->
  forallb isDot s = true ->
  greedy isSpace (rmatch tail_re Some) i g s <> None.
Proof.
  induction s as [|c s IH]; intros i g Hne Hlast Hdot; [congruence|].
  cbn [greedy].
  assert (Htail : rmatch tail_re Some (MState i (c :: s) g) <> None).
  { rewrite tail_spec. simpl nonempty. rewrite Hdot. discriminate. }
  destruct (isSpace c) eqn:Ec; [|exact Htail].
  destruct (greedy isSpace (rmatch tail_re Some) (S i) g s) eqn:E;
    [discriminate|].
  exfalso. revert E. apply IH.
  - intros ->. specialize (Hlast c [] eq_refl). congruence.
  - intros c' s' ->. apply (Hlast c' (c :: s')). reflexivity.
  - simpl in Hdot. apply andb_true_iff in Hdot. tauto.
Qed.

End RegexFacts.
Import RegexFacts.

(** ** Extraction, line by line *)

Module ExtractFacts.

Lemma numberedRe_group : has_group numberedRe = true.
Proof. reflexivity. Qed.

Lemma bulletRe_group : has_group bulletRe = true.
Proof. reflexivity. Qed.

Lemma dashRe_group : has_group dashRe = true.
Proof. reflexivity. Qed.

Ltac with_group H lem :=
  let g := fresh "g" in
  let Eg := fresh "Eg" in
  destruct (@str_match_group _ _ _ lem H) as [g Eg].

(** A turn of the loop never throws, and pushes at most one task. *)
Lemma for_line_produced rule3 tasks line :
  for_line rule3 tasks line
  = Normal (tasks ++ olist (produced rule3 line)).
Proof.
  unfold produced, for_line, group1_trim, push.
  destruct (str_match line numberedRe) as [m|] eqn:E1.
  { with_group E1 numberedRe_group. rewrite Eg. reflexivity. }
  destruct (str_match line bulletRe) as [m|] eqn:E2.
  { with_group E2 bulletRe_group. rewrite Eg. reflexivity. }
  destruct (if rule3 then str_match line dashRe else None) as [m|] eqn:E3.
  { destruct rule3; [|discriminate].
    with_group E3 dashRe_group. rewrite Eg. reflexivity. }
  destruct ((3 <? List.length line) && negb (endsWith COLON line)); simpl.
  - reflexivity.
  - rewrite app_nil_r; reflexivity.
Qed.

Lemma foldM_for_line rule3 lines : forall tasks,
  foldM (for_line rule3) lines tasks
  = Normal (tasks ++ raw_tasks rule3 lines).
Proof.
  induction lines as [|line lines IH]; intros tasks; simpl.
  - rewrite app_nil_r; reflexivity.
  - rewrite for_line_produced. simpl. rewrite IH, <- app_assoc.
    reflexivity.
Qed.

(** [extract] on a string, as a pipeline. *)
Lemma extract_string rule3 s :
  extract rule3 (JSString s)
  = Normal (filter_indexed first_nonempty (raw_tasks rule3 (lines_of s))).
Proof.
  unfold extract. simpl. destruct s as [|c s]; simpl.
  - reflexivity.
  - rewrite foldM_for_line. reflexivity.
Qed.

Lemma extract_non_string rule3 v :
  typeof v <> "string"%string -> extract rule3 v = Normal [].
Proof.
  intros H. unfold extract.
  destruct v; simpl in *; try reflexivity; try congruence;
    destruct (negb _); reflexivity.
Qed.

Lemma lines_of_spec s line :
  In line (lines_of s) -> line <> [] /\ trimmed line.
Proof.
  unfold lines_of. rewrite filter_In, in_map_iff.
  intros [(piece & <- & _) Hne]. split.
  - apply nonempty_true; exact Hne.
  - apply trim_trimmed.
Qed.

(** Every task pushed for a trimmed line is itself trimmed. *)
Lemma produced_trimmed rule3 line t :
  trimmed line -> produced rule3 line = Some t -> trimmed t.
Proof.
  intros Hl. unfold produced, for_line, group1_trim, push.
  destruct (str_match line numberedRe) as [m|] eqn:E1.
  { with_group E1 numberedRe_group. rewrite Eg. simpl.
    intros H; injection H as <-. apply trim_trimmed. }
  destruct (str_match line bulletRe) as [m|] eqn:E2.
  { with_group E2 bulletRe_group. rewrite Eg. simpl.
    intros H; injection H as <-. apply trim_trimmed. }
  destruct (if rule3 then str_match line dashRe else None) as [m|] eqn:E3.
  { destruct rule3; [|discriminate].
    with_group E3 dashRe_group. rewrite Eg. simpl.
    intros H; injection H as <-. apply trim_trimmed. }
  destruct ((3 <? List.length line) && negb (endsWith COLON line)); simpl.
  - intros H; injection H as <-. exact Hl.
  - discriminate.
Qed.

Lemma raw_tasks_In rule3 lines t :
  In t (raw_tasks rule3 lines) <->
  exists line, In line lines /\ produced rule3 line = Some t.
Proof.
  unfold raw_tasks. rewrite in_flat_map. split.
  - intros (line & Hin & Ht). exists line; split; auto.
    destruct (produced rule3 line); simpl in Ht; [|tauto].
    destruct Ht as [->|[]]; reflexivity.
  - intros (line & Hin & Ht). exists line; split; auto.
    rewrite Ht; simpl; auto.
Qed.

End ExtractFacts.
Import ExtractFacts.

(** ** The closing [filter]: first occurrences only *)

Module DedupFacts.

Lemma indexOf_from_range self : forall i x,
  indexOf_from i self x = (-1)%Z \/
  (Z.of_nat i <= indexOf_from i self x
   < Z.of_nat (i + List.length self))%Z.
Proof.
  induction self as [|y self IH]; intros i x; simpl; [auto|].
  destruct (JsStr.eqb y x).
  - right; lia.
  - destruct (IH (S i) x) as [->|H]; [auto|right; lia].
Qed.

(** A found index is the position of the first element equal to [x]. *)
Lemma indexOf_from_first self : forall i x m,
  indexOf_from i self x = Z.of_nat (i + m) ->
  nth_error self m = Some x /\
  forall m', m' < m -> nth_error self m' <> Some x.
Proof.
  induction self as [|y self IH]; intros i x m; simpl.
  - lia.
  - destruct (JsStr.eqb y x) eqn:E.
    + intros H. assert (m = 0) by lia. subst m.
      apply eqb_eq in E. subst y. split; [reflexivity|lia].
    + intros H. destruct m as [|m].
      * destruct (indexOf_from_range self (S i) x); lia.
      * replace (i + S m) with (S i + m) in H by lia.
        apply IH in H. destruct H as [Hn Hf]. split; [exact Hn|].
        intros [|m'] Hlt; simpl.
        -- apply eqb_neq in E. congruence.
        -- apply Hf; lia.
Qed.

Lemma indexOf_from_found self : forall i x,
  In x self -> exists m, indexOf_from i self x = Z.of_nat (i + m).
Proof.
  induction self as [|y self IH]; intros i x Hin; simpl; [destruct Hin|].
  destruct (JsStr.eqb y x) eqn:E.
  - exists 0. f_equal; lia.
  - destruct Hin as [->|Hin]; [rewrite eqb_refl in E; discriminate|].
    destruct (IH (S i) x Hin) as [m Hm]. exists (S m).
    rewrite Hm. f_equal; lia.
Qed.

Section FilterFrom.

Variable A : Type.
Variable f : A -> nat -> list A -> bool.
Variable self : list A.

Lemma filter_from_nth l : forall i n x,
  nth_error (filter_from f self i l) n = Some x ->
  exists m, nth_error l m = Some x /\ f x (i + m) self = true.
Proof.
  induction l as [|y l IH]; intros i n x; simpl.
  - destruct n; discriminate.
  - destruct (f y i self) eqn:E.
    + destruct n as [|n]; simpl.
      * intros H; injection H as <-. exists 0. rewrite Nat.add_0_r. auto.
      * intros H. apply IH in H. destruct H as (m & Hm & Hf).
        exists (S m). replace (i + S m) with (S i + m) by lia. auto.
    + intros H. apply IH in H. destruct H as (m & Hm & Hf).
      exists (S m). replace (i + S m) with (S i + m) by lia. auto.
Qed.

(** The elements kept come in the order of their indices in [l]. *)
Lemma filter_from_order l : forall i n1 n2 x1 x2,
  n1 < n2 ->
  nth_error (filter_from f self i l) n1 = Some x1 ->
  nth_error (filter_from f self i l) n2 = Some x2 ->
  exists m1 m2, m1 < m2 /\
    nth_error l m1 = Some x1 /\ f x1 (i + m1) self = true /\
    nth_error l m2 = Some x2 /\ f x2 (i + m2) self = true.
Proof.
  induction l as [|y l IH]; intros i n1 n2 x1 x2 Hlt; simpl.
  - destruct n1; discriminate.
  - destruct (f y i self) eqn:E.
    + destruct n2 as [|n2]; [lia|]. destruct n1 as [|n1]; simpl.
      * intros H1 H2. injection H1 as <-.
        apply filter_from_nth in H2. destruct H2 as (m2 & Hm2 & Hf2).
        exists 0, (S m2). rewrite Nat.add_0_r.
        replace (i + S m2) with (S i + m2) by lia.
        repeat split; auto; lia.
      * intros H1 H2.
        destruct (IH (S i) n1 n2 x1 x2 ltac:(lia) H1 H2)
          as (m1 & m2 & L & A1 & F1 & A2 & F2).
        exists (S m1), (S m2).
        replace (i + S m1) with (S i + m1) by lia.
        replace (i + S m2) with (S i + m2) by lia.
        repeat split; auto; lia.
    + intros H1 H2.
      destruct (IH (S i) n1 n2 x1 x2 Hlt H1 H2)
        as (m1 & m2 & L & A1 & F1 & A2 & F2).
      exists (S m1), (S m2).
      replace (i + S m1) with (S i + m1) by lia.
      replace (i + S m2) with (S i + m2) by lia.
      repeat split; auto; lia.
Qed.

Lemma filter_from_keeps l : forall i m x,
  nth_error l m = Some x -> f x (i + m) self = true ->
  In x (filter_from f self i l).
Proof.
  induction l as [|y l IH]; intros i m x; simpl.
  - destruct m; discriminate.
  - destruct m as [|m]; simpl.
    + intros H; injection H as ->. rewrite Nat.add_0_r.
      intros ->. left; reflexivity.
    + intros Hn Hf. replace (i + S m) with (S i + m) in Hf by lia.
      specialize (IH (S i) m x Hn Hf).
      destruct (f y i self); [right|]; exact IH.
Qed.

End FilterFrom.

Lemma first_nonempty_true task index self :
  first_nonempty task index self = true <->
  task <> [] /\ indexOf self task = Z.of_nat index.
Proof.
  unfold first_nonempty.
  rewrite andb_true_iff, Z.eqb_eq, <- nonempty_length, nonempty_true.
  tauto.
Qed.

(** Earlier in the output means an earlier first occurrence. *)
Lemma dedup_order raw n1 n2 x1 x2 :
  n1 < n2 ->
  nth_error (dedup raw) n1 = Some x1 ->
  nth_error (dedup raw) n2 = Some x2 ->
  (0 <= indexOf raw x1 < indexOf raw x2)%Z.
Proof.
  intros Hlt H1 H2. unfold dedup, filter_indexed in *.
  destruct (filter_from_order _ _ _ _ _ _ _ _ _ Hlt H1 H2)
    as (m1 & m2 & L & _ & F1 & _ & F2).
  apply first_nonempty_true in F1, F2. simpl in F1, F2.
  destruct F1 as [_ ->], F2 as [_ ->]. lia.
Qed.

Lemma dedup_NoDup raw : NoDup (dedup raw).
Proof.
  apply NoDup_nth_error. intros i j Hi E.
  destruct (nth_error (dedup raw) i) as [x|] eqn:Ei;
    [|apply nth_error_None in Ei; lia].
  symmetry in E.
  destruct (Nat.lt_trichotomy i j) as [L|[L|L]]; [|exact L|].
  - pose proof (dedup_order raw _ _ _ _ L Ei E). lia.
  - pose proof (dedup_order raw _ _ _ _ L E Ei). lia.
Qed.

Lemma dedup_In raw x : In x (dedup raw) <-> In x raw /\ x <> [].
Proof.
  unfold dedup, filter_indexed. split.
  - intros H. apply In_nth_error in H. destruct H as [n H].
    apply filter_from_nth in H. destruct H as (m & Hm & Hf).
    apply first_nonempty_true in Hf. split; [|tauto].
    eapply nth_error_In; exact Hm.
  - intros [Hin Hne].
    destruct (indexOf_from_found raw 0 x Hin) as [m Hm].
    pose proof (indexOf_from_first raw 0 x m Hm) as [Hn _].
    eapply filter_from_keeps; [exact Hn|].
    apply first_nonempty_true. split; [exact Hne|exact Hm].
Qed.

End DedupFacts.
Import DedupFacts.

(** ** From positions among the pushed tasks back to lines *)

Module OrderFacts.

Lemma first_producer_here line lines t :
  produced true line = Some t -> first_producer (line :: lines) t 0.
Proof.
  intros H. split; [exists line; auto|]. intros p' Hp'; lia.
Qed.

Lemma first_producer_later line lines t p :
  produced true line <> Some t ->
  first_producer lines t p -> first_producer (line :: lines) t (S p).
Proof.
  intros Hn [(l & Hl & Hp) Hfirst]. split.
  - exists l; auto.
  - intros [|p'] Hlt (l' & Hl' & Hp'); simpl in Hl'.
    + injection Hl' as <-. contradiction.
    + apply (Hfirst p'); [lia|]. exists l'; auto.
Qed.

Lemma raw_tasks_cons rule3 line lines :
  raw_tasks rule3 (line :: lines)
  = olist (produced rule3 line) ++ raw_tasks rule3 lines.
Proof. reflexivity. Qed.

Lemma raw_found lines : forall i x,
  (0 <= indexOf_from i (raw_tasks true lines) x)%Z ->
  exists p, first_producer lines x p.
Proof.
  induction lines as [|line lines IH]; intros i x; [simpl; lia|].
  rewrite raw_tasks_cons.
  destruct (produced true line) as [t|] eqn:Et; simpl.
  - destruct (JsStr.eqb t x) eqn:E.
    + apply eqb_eq in E. subst t. intros _. exists 0.
      apply first_producer_here; exact Et.
    + intros H. destruct (IH _ _ H) as [p Hp]. exists (S p).
      apply first_producer_later; [|exact Hp].
      apply eqb_neq in E. congruence.
  - intros H. destruct (IH _ _ H) as [p Hp]. exists (S p).
    apply first_producer_later; [congruence|exact Hp].
Qed.

(** First occurrences among the pushed tasks are ordered as the first
    lines that pushed them. *)
Lemma raw_order lines : forall i a b,
  (0 <= indexOf_from i (raw_tasks true lines) a
     < indexOf_from i (raw_tasks true lines) b)%Z ->
  exists p q, p < q /\
    first_producer lines a p /\ first_producer lines b q.
Proof.
  induction lines as [|line lines IH]; intros i a b; [simpl; lia|].
  rewrite raw_tasks_cons.
  destruct (produced true line) as [t|] eqn:Et; simpl.
  - destruct (JsStr.eqb t a) eqn:Ea, (JsStr.eqb t b) eqn:Eb.
    + lia.
    + intros H. destruct (raw_found lines (S i) b ltac:(lia)) as [q Hq].
      apply eqb_eq in Ea. subst t. apply eqb_neq in Eb.
      exists 0, (S q). split; [lia|split].
      * apply first_producer_here; exact Et.
      * apply first_producer_later; [congruence|exact Hq].
    + intros H.
      destruct (indexOf_from_range (raw_tasks true lines) (S i) a); lia.
    + intros H. destruct (IH _ _ _ H) as (p & q & L & Hp & Hq).
      apply eqb_neq in Ea, Eb.
      exists (S p), (S q). split; [lia|split];
        (apply first_producer_later; [congruence|assumption]).
  - intros H. destruct (IH _ _ _ H) as (p & q & L & Hp & Hq).
    exists (S p), (S q). split; [lia|split];
      (apply first_producer_later; [congruence|assumption]).
Qed.

End OrderFacts.
Import OrderFacts.

(** ** The leading-dash rule against the bullet rule *)

Module DashFacts.

Lemma numberedRe_match line :
  str_match line numberedRe =
  match line with
  | c :: s =>
      if isDigit c then
        greedy isDigit
          (rmatch (Cls (unit_is FULL_STOP) >> Plus isSpace >> tail_re)%re
             Some) 1 None s
      else None
  | [] => None
  end.
Proof.
  unfold numberedRe. rewrite str_match_anchored.
  destruct line; reflexivity.
Qed.

Lemma bulletRe_match line :
  str_match line bulletRe =
  match line with
  | c :: c2 :: s =>
      if isBulletGlyph c then
        if isSpace c2 then greedy isSpace (rmatch tail_re Some) 2 None s
        else None
      else None
  | _ => None
  end.
Proof.
  unfold bulletRe. rewrite str_match_anchored.
  destruct line as [|c [|c2 s]]; cbn; try reflexivity;
    destruct (isBulletGlyph c); reflexivity.
Qed.

Lemma dashRe_match line :
  str_match line dashRe =
  match line with
  | c :: s =>
      if unit_is HYPHEN c
      then greedy isSpace (rmatch tail_re Some) 1 None s
      else None
  | [] => None
  end.
Proof.
  unfold dashRe. rewrite str_match_anchored.
  destruct line; reflexivity.
Qed.

Lemma hyphen_is_bullet c : unit_is HYPHEN c = true -> isBulletGlyph c = true.
Proof.
  unfold isBulletGlyph. intros ->. rewrite orb_true_r. reflexivity.
Qed.

(** On a trimmed line whose hyphen is not directly followed by content,
    the dash pattern matches only if the bullet pattern does. *)
Lemma dash_needs_bullet line :
  trimmed line ->
  hyphen_then_nonspace line = false ->
  str_match line bulletRe = None ->
  str_match line dashRe = None.
Proof.
  intros [_ Hlast] Hh. rewrite bulletRe_match, dashRe_match.
  destruct line as [|c [|c2 s]]; [reflexivity| |].
  - intros _. destruct (unit_is HYPHEN c); [|reflexivity].
    cbn [greedy]. rewrite tail_spec. reflexivity.
  - destruct (unit_is HYPHEN c) eqn:Ec; [|reflexivity].
    rewrite (hyphen_is_bullet c Ec).
    simpl in Hh. rewrite Ec in Hh. simpl in Hh.
    apply negb_false_iff in Hh. rewrite Hh.
    intros Hb. cbn [greedy]. rewrite Hh, Hb, tail_spec.
    destruct (forallb isDot (c2 :: s)) eqn:Hdot;
      [|rewrite andb_false_r; reflexivity].
    exfalso. revert Hb. apply greedy_space_tail.
    + intros ->. specialize (Hlast c2 [c] eq_refl). congruence.
    + intros c' s' ->. apply (Hlast c' (c :: c2 :: s')). reflexivity.
    + simpl in Hdot. apply andb_true_iff in Hdot. tauto.
Qed.

Lemma for_line_rule3_irrelevant tasks line :
  trimmed line -> hyphen_then_nonspace line = false ->
  for_line false tasks line = for_line true tasks line.
Proof.
  intros Ht Hh. unfold for_line.
  destruct (str_match line numberedRe); [reflexivity|].
  destruct (str_match line bulletRe) eqn:Eb; [reflexivity|].
  rewrite (dash_needs_bullet line Ht Hh Eb). reflexivity.
Qed.

Lemma foldM_ext {A B} (f g : B -> A -> completion B) l :
  (forall a, In a l -> forall b, f b a = g b a) ->
  forall b, foldM f l b = foldM g l b.
Proof.
  induction l as [|a l IH]; intros H b; simpl; [reflexivity|].
  rewrite (H a (or_introl eq_refl)).
  destruct (g b a); simpl; [|reflexivity].
  apply IH. intros a' Ha'. apply H. right; exact Ha'.
Qed.

(** The leading-dash rule does fire: on [-] directly followed by content
    with no line terminator in it, it pushes that content. *)
Lemma rule3_fires tasks c s :
  isSpace c = false -> forallb isDot (c :: s) = true ->
  for_line true tasks (HYPHEN :: c :: s) = Normal (tasks ++ [trim (c :: s)]).
Proof.
  intros Hc Hdot. unfold for_line.
  rewrite numberedRe_match, bulletRe_match, dashRe_match.
  change (isDigit HYPHEN) with false. cbv iota.
  change (isBulletGlyph HYPHEN) with true.
  change (unit_is HYPHEN HYPHEN) with true. cbv iota.
  rewrite Hc. cbn [greedy]. rewrite Hc, tail_spec, Hdot.
  reflexivity.
Qed.

End DashFacts.
Import DashFacts.

(** * The task extraction engine *)

(** C3: for every input text the list returned by [extractTasksFromText]
    has no two equal strings; a string pushed by several lines is kept
    once (it is in the output exactly when it is not empty and some line
    pushes it), and of two tasks of the output the one that comes first is
    the one whose first producing line is higher up in the text. *)
Theorem extractTasksFromText_unique_in_line_order (s : jsstring) :
  exists tasks,
    extractTasksFromText (JSString s) = Normal tasks /\
    NoDup tasks /\
    (forall t, In t tasks <->
               t <> [] /\ exists p, produces (lines_of s) p t) /\
    (forall i j a b,
        i < j -> nth_error tasks i = Some a -> nth_error tasks j = Some b ->
        exists p q, p < q /\ first_producer (lines_of s) a p
                          /\ first_producer (lines_of s) b q).
Proof.
  exists (dedup (raw_tasks true (lines_of s))).
  split; [apply extract_string|].
  split; [apply dedup_NoDup|]. split.
  - intros t. rewrite dedup_In, raw_tasks_In. split.
    + intros [(line & Hin & Hp) Hne]. split; [exact Hne|].
      apply In_nth_error in Hin. destruct Hin as [p Hn].
      exists p, line; auto.
    + intros [Hne (p & line & Hn & Hp)]. split; [|exact Hne].
      exists line; split; [|exact Hp]. eapply nth_error_In; exact Hn.
  - intros i j a b Hlt Ha Hb.
    apply (raw_order (lines_of s) 0 a b).
    exact (dedup_order _ _ _ _ _ Hlt Ha Hb).
Qed.

Lemma extractTasksFromText_unique_in_line_order_witness :
  exists p q, p < q /\
    first_producer (lines_of spec_sample) (lit "Buy milk") p /\
    first_producer (lines_of spec_sample) (lit "Short") q.
Proof.
  destruct (extractTasksFromText_unique_in_line_order spec_sample)
    as (tasks & E & _ & _ & Hord).
  vm_compute in E. injection E as <-.
  apply (Hord 0 2); [lia | reflexivity | reflexivity].
Defined.

(** C4: for every input, every string in the list returned by
    [extractTasksFromText] is non-empty and has no white space at its
    start or at its end. *)
Theorem extractTasksFromText_tasks_trimmed (text : JSValue) :
  exists tasks,
    extractTasksFromText text = Normal tasks /\
    Forall (fun t => t <> [] /\ trimmed t) tasks.
Proof.
  destruct text as [| | | | |s| | | |];
    try (exists []; split; [apply extract_non_string; discriminate
                           |constructor]).
  exists (dedup (raw_tasks true (lines_of s))).
  split; [apply extract_string|].
  apply Forall_forall. intros t Ht.
  apply dedup_In in Ht. destruct Ht as [Hraw Hne]. split; [exact Hne|].
  apply raw_tasks_In in Hraw. destruct Hraw as (line & Hin & Hp).
  apply lines_of_spec in Hin.
  eapply produced_trimmed; [|exact Hp]. tauto.
Qed.

(** C5: on the text of four lines [1. Buy milk], [- Call Bob], [Summary:],
    [Short] the result is exactly [Buy milk], [Call Bob], [Short]: the
    plain line ending in a colon is dropped and the plain line of five
    units is kept. *)
Theorem extractTasksFromText_spec_sample :
  extractTasksFromText (JSString spec_sample)
  = Normal [lit "Buy milk"; lit "Call Bob"; lit "Short"]
  /\ produced true (lit "Summary:") = None
  /\ produced true (lit "Short") = Some (lit "Short")
  /\ List.length (lit "Short") = 5.
Proof. vm_compute. repeat split. Qed.

(** C6: [extractTasksFromText] returns a list on every input, never
    throwing, and the list is empty for [null], for any value that is not
    a string, and for the empty string. *)
Theorem extractTasksFromText_never_fails (text : JSValue) :
  (exists tasks, extractTasksFromText text = Normal tasks) /\
  (text = JSNull \/ typeof text <> "string"%string \/ text = JSString [] ->
   extractTasksFromText text = Normal []).
Proof.
  split.
  - destruct (extractTasksFromText_tasks_trimmed text) as (tasks & E & _).
    exists tasks; exact E.
  - intros [->|[H| ->]]; [reflexivity| |reflexivity].
    apply extract_non_string; exact H.
Qed.

Lemma extractTasksFromText_never_fails_witness :
  extractTasksFromText JSNull = Normal [] /\
  extractTasksFromText (JSNumber (S754_finite false 42 0)) = Normal [] /\
  extractTasksFromText (JSString []) = Normal [].
Proof.
  split; [|split].
  - apply (extractTasksFromText_never_fails JSNull). left; reflexivity.
  - apply (extractTasksFromText_never_fails
             (JSNumber (S754_finite false 42 0))).
    right; left; discriminate.
  - apply (extractTasksFromText_never_fails (JSString [])).
    right; right; reflexivity.
Defined.

(** C7, as the code has it: the leading-dash rule is live, it is what
    handles a hyphen directly followed by content.  For every input none of
    whose lines starts with a hyphen directly followed by a unit that is
    not white space, taking the rule out leaves the output unchanged: on
    those lines the bullet rule matches whenever the dash rule would. *)
Theorem rule3_only_needed_for_tight_hyphen (text : JSValue) :
  (forall line, In line (text_lines text) ->
                hyphen_then_nonspace line = false) ->
  extractTasksFromText_without_rule3 text = extractTasksFromText text.
Proof.
  intros H. unfold extractTasksFromText_without_rule3, extractTasksFromText.
  destruct text as [| | | | |s| | | |]; try reflexivity.
  unfold extract. simpl.
  destruct (negb (nonempty s)); simpl; [reflexivity|].
  rewrite (foldM_ext (for_line false) (for_line true)); [reflexivity|].
  intros line Hin tasks. apply for_line_rule3_irrelevant.
  - apply (lines_of_spec s line Hin).
  - apply H. exact Hin.
Qed.

Lemma rule3_only_needed_for_tight_hyphen_witness :
  extractTasksFromText_without_rule3 (JSString spec_sample)
  = extractTasksFromText (JSString spec_sample).
Proof.
  apply (rule3_only_needed_for_tight_hyphen (JSString spec_sample)).
  intros line Hin. vm_compute in Hin.
  repeat (destruct Hin as [<-|Hin]; [reflexivity|]). destruct Hin.
Defined.

(** C7, as the specification words it, does not hold: on the one-line
    text [-item] the rule pushes [item], and without the rule the
    plain-line rule pushes [-item]. *)
Lemma rule3_is_not_dead_code :
  extractTasksFromText (JSString (lit "-item")) = Normal [lit "item"] /\
  extractTasksFromText_without_rule3 (JSString (lit "-item"))
    = Normal [lit "-item"] /\
  ~ (forall text,
       extractTasksFromText_without_rule3 text = extractTasksFromText text).
Proof.
  split; [vm_compute; reflexivity|].
  split; [vm_compute; reflexivity|].
  intros H. specialize (H (JSString (lit "-item"))).
  vm_compute in H. discriminate.
Qed.

(** C9: a line with a numbered-list or bullet marker can give a task of
    three units or fewer: [1. ab] and [- ab] give [ab], while the plain
    line [ab] gives nothing; the minimum length belongs to the plain-line
    rule only. *)
Theorem marker_rules_have_no_minimum_length :
  extractTasksFromText (JSString (lit "1. ab")) = Normal [lit "ab"] /\
  extractTasksFromText (JSString (lit "- ab")) = Normal [lit "ab"] /\
  List.length (lit "ab") <= 3 /\
  extractTasksFromText (JSString (lit "ab")) = Normal [].
Proof. vm_compute. repeat split; lia. Qed.

(** C10: a line that ends with a colon but has a numbered-list or bullet
    marker still gives its content as a task: [1. Setup:] and [* Setup:]
    give [Setup:], while the plain line [Setup:] gives nothing; the header
    exclusion belongs to the plain-line rule only. *)
Theorem marker_rules_keep_colon_lines :
  extractTasksFromText (JSString (lit "1. Setup:")) = Normal [lit "Setup:"] /\
  extractTasksFromText (JSString (lit "* Setup:")) = Normal [lit "Setup:"] /\
  endsWith COLON (lit "1. Setup:") = true /\
  extractTasksFromText (JSString (lit "Setup:")) = Normal [].
Proof. vm_compute. repeat split. Qed.

(** * The issue fan-out engine *)

Module FanoutFacts.

Section Client.

Variable W : Type.
Variable octokit : Octokit W.

Lemma answers_length requests : forall w,
  List.length (fst (answers octokit requests w)) = List.length requests.
Proof.
  induction requests as [|r requests IH]; intros w; simpl; [reflexivity|].
  destruct (issues_create octokit r w) as [a w'].
  specialize (IH w').
  destruct (answers octokit requests w') as [ans w'']. simpl in *.
  congruence.
Qed.

Variables owner repo labels assignee : JSValue.

(** The loop is the client run over the requests, each answer turned
    into a record; a rejection changes the record, not the run. *)
Lemma fold_for_task tasks : forall acc w,
  fold_left (for_task octokit owner repo labels assignee) tasks (acc, w)
  = (acc ++ records tasks
       (fst (answers octokit
               (map (issueParams owner repo labels assignee) tasks) w)),
     snd (answers octokit
            (map (issueParams owner repo labels assignee) tasks) w)).
Proof.
  induction tasks as [|task tasks IH]; intros acc w; simpl.
  - unfold records; simpl. rewrite app_nil_r; reflexivity.
  - unfold try_block.
    destruct (issues_create octokit
                (issueParams owner repo labels assignee task) w)
      as [[response|error] w']; rewrite IH;
      destruct (answers octokit
                  (map (issueParams owner repo labels assignee) tasks) w')
        as [ans w'']; unfold records; simpl;
      rewrite <- app_assoc; reflexivity.
Qed.

End Client.

Lemma createGitHubIssues_run W (octokit : Octokit W) owner repo tasks
    options w :
  createGitHubIssues octokit owner repo tasks options w
  = (records tasks
       (fst (answers octokit (requests_for owner repo options tasks) w)),
     snd (answers octokit (requests_for owner repo options tasks) w)).
Proof.
  unfold createGitHubIssues. rewrite fold_for_task. reflexivity.
Qed.

Lemma recording_answers W (octokit : Octokit W) requests : forall w seen,
  answers (recording octokit) requests (w, seen)
  = (fst (answers octokit requests w),
     (snd (answers octokit requests w), seen ++ requests)).
Proof.
  induction requests as [|r requests IH]; intros w seen; simpl.
  - rewrite app_nil_r; reflexivity.
  - destruct (issues_create octokit r w) as [a w'].
    rewrite IH. destruct (answers octokit requests w') as [ans w''].
    simpl. rewrite <- app_assoc. reflexivity.
Qed.

Lemma records_length tasks outcome :
  List.length outcome = List.length tasks ->
  List.length (records tasks outcome) = List.length tasks.
Proof.
  intros H. unfold records. rewrite length_map, length_combine. lia.
Qed.

Lemma records_nth tasks outcome i task a :
  nth_error tasks i = Some task -> nth_error outcome i = Some a ->
  nth_error (records tasks outcome) i = Some (record_of task a).
Proof.
  unfold records. revert outcome i.
  induction tasks as [|t tasks IH]; intros [|o outcome] [|i];
    simpl; try discriminate.
  - intros H1 H2; injection H1 as ->; injection H2 as ->. reflexivity.
  - apply IH.
Qed.

Lemma is_failure_record_of task a :
  is_failure_record (record_of task a) = is_rejected a.
Proof. destruct a; reflexivity. Qed.

Lemma is_success_record_of task a :
  is_success_record (record_of task a) = negb (is_rejected a).
Proof. destruct a; reflexivity. Qed.

Lemma count_records (f : JSProps -> bool) (g : settled -> bool) :
  (forall task a, f (record_of task a) = g a) ->
  forall tasks outcome,
    List.length outcome = List.length tasks ->
    count f (records tasks outcome) = count g outcome.
Proof.
  intros Hfg. unfold count, records.
  induction tasks as [|t tasks IH]; intros [|o outcome]; simpl;
    try discriminate; [reflexivity|].
  intros H. injection H as H. rewrite Hfg.
  destruct (g o); simpl; rewrite IH; auto.
Qed.

Lemma count_none {A} (f : A -> bool) l :
  (forall j a, nth_error l j = Some a -> f a = false) ->
  count f l = 0 /\ count (fun a => negb (f a)) l = List.length l.
Proof.
  unfold count. induction l as [|x l IH]; intros H; simpl; [auto|].
  rewrite (H 0 x eq_refl). simpl.
  destruct IH as [IH1 IH2]; [|split; [exact IH1|rewrite IH2; reflexivity]].
  intros j a Hj. apply (H (S j)). exact Hj.
Qed.

(** A predicate true at index [k] only is true of one element. *)
Lemma count_exactly_one {A} (f : A -> bool) l : forall k,
  k < List.length l ->
  (forall j a, nth_error l j = Some a -> f a = Nat.eqb j k) ->
  count f l = 1 /\ count (fun a => negb (f a)) l = List.length l - 1.
Proof.
  induction l as [|x l IH]; intros k Hk H; simpl in Hk; [lia|].
  unfold count. simpl. destruct k as [|k].
  - rewrite (H 0 x eq_refl). simpl.
    destruct (count_none f l) as [C1 C2].
    { intros j a Hj. apply (H (S j) a Hj). }
    unfold count in C1, C2. rewrite C1, C2. split; lia.
  - rewrite (H 0 x eq_refl). simpl.
    destruct (IH k) as [C1 C2]; [lia| |].
    { intros j a Hj. apply (H (S j) a Hj). }
    unfold count in C1, C2. rewrite C1, C2. split; lia.
Qed.

End FanoutFacts.
Import FanoutFacts.

(** C1: whatever the client answers, [createGitHubIssues] returns one
    record per task, in the order of the tasks, the record of a task being
    the one for the answer to its own call, and the client is called for
    every task of the batch.  When the client rejects the call of exactly
    one task, at index [k], the result has as many records as there are
    tasks, all but one of them success records, one failure record, which
    is at index [k] and carries that task, and every later task has its
    issue created and recorded. *)
Theorem createGitHubIssues_isolates_failures
    W (octokit : Octokit W) owner repo tasks options w :
  List.length (fst (createGitHubIssues octokit owner repo tasks options w))
  = List.length tasks /\
  snd (createGitHubIssues octokit owner repo tasks options w)
  = snd (answers octokit (requests_for owner repo options tasks) w) /\
  (forall i task,
      nth_error tasks i = Some task ->
      exists a,
        nth_error
          (fst (answers octokit (requests_for owner repo options tasks) w))
          i = Some a /\
        nth_error
          (fst (createGitHubIssues octokit owner repo tasks options w)) i
        = Some (record_of task a)) /\
  (forall k,
      rejected_exactly_at k
        (fst (answers octokit (requests_for owner repo options tasks) w)) ->
      count is_success_record
        (fst (createGitHubIssues octokit owner repo tasks options w))
      = List.length tasks - 1 /\
      count is_failure_record
        (fst (createGitHubIssues octokit owner repo tasks options w)) = 1 /\
      (exists task error,
          nth_error tasks k = Some task /\
          nth_error
            (fst (createGitHubIssues octokit owner repo tasks options w)) k
          = Some (failed_record task error)) /\
      (forall j, k < j < List.length tasks ->
          exists response,
            nth_error
              (fst (answers octokit
                      (requests_for owner repo options tasks) w)) j
            = Some (Fulfilled response) /\
            nth_error
              (fst (createGitHubIssues octokit owner repo tasks options w))
              j
            = Some (created_record response))).
Proof.
  rewrite createGitHubIssues_run. simpl fst. simpl snd.
  pose proof (answers_length _ octokit
                (requests_for owner repo options tasks) w) as Hlen.
  unfold requests_for in Hlen at 2. rewrite length_map in Hlen.
  set (outcome :=
         fst (answers octokit (requests_for owner repo options tasks) w))
    in *.
  assert (Hnth : forall i task, nth_error tasks i = Some task ->
            exists a, nth_error outcome i = Some a /\
              nth_error (records tasks outcome) i
              = Some (record_of task a)).
  { intros i task Hi.
    destruct (nth_error outcome i) as [a|] eqn:Ea.
    - exists a; split; [reflexivity|]. apply records_nth; assumption.
    - apply nth_error_None in Ea.
      assert (i < List.length tasks)
        by (apply nth_error_Some; congruence). lia. }
  split; [apply records_length; exact Hlen|].
  split; [reflexivity|]. split; [exact Hnth|].
  intros k [Hk Hone].
  destruct (count_exactly_one is_rejected outcome k Hk Hone) as [C1 C2].
  split; [|split; [|split]].
  - rewrite (count_records is_success_record
               (fun a => negb (is_rejected a)) is_success_record_of
               tasks outcome Hlen).
    rewrite C2, Hlen. reflexivity.
  - rewrite (count_records is_failure_record is_rejected
               is_failure_record_of tasks outcome Hlen).
    exact C1.
  - destruct (nth_error tasks k) as [task|] eqn:Et;
      [|apply nth_error_None in Et; lia].
    destruct (Hnth k task Et) as (a & Ha & Hr).
    pose proof (Hone k a Ha) as Hrej. rewrite Nat.eqb_refl in Hrej.
    destruct a as [response|error]; [discriminate|].
    exists task, error. split; [reflexivity|exact Hr].
  - intros j [Hkj Hj].
    destruct (nth_error tasks j) as [task|] eqn:Et;
      [|apply nth_error_None in Et; lia].
    destruct (Hnth j task Et) as (a & Ha & Hr).
    pose proof (Hone j a Ha) as Hrej.
    replace (Nat.eqb j k) with false in Hrej
      by (symmetry; apply Nat.eqb_neq; lia).
    destruct a as [response|error]; [|discriminate].
    exists response. split; [exact Ha|exact Hr].
Qed.

Lemma createGitHubIssues_isolates_failures_witness :
  count is_success_record
    (fst (createGitHubIssues demo_client demo_owner demo_repo demo_tasks
            demo_options 0)) = 2 /\
  count is_failure_record
    (fst (createGitHubIssues demo_client demo_owner demo_repo demo_tasks
            demo_options 0)) = 1 /\
  (exists task error,
      nth_error demo_tasks 1 = Some task /\
      nth_error
        (fst (createGitHubIssues demo_client demo_owner demo_repo demo_tasks
                demo_options 0)) 1
      = Some (failed_record task error)) /\
  (forall j, 1 < j < 3 ->
      exists response,
        nth_error
          (fst (answers demo_client
                  (requests_for demo_owner demo_repo demo_options
                     demo_tasks) 0)) j
        = Some (Fulfilled response) /\
        nth_error
          (fst (createGitHubIssues demo_client demo_owner demo_repo
                  demo_tasks demo_options 0)) j
        = Some (created_record response)).
Proof.
  destruct (createGitHubIssues_isolates_failures nat demo_client demo_owner
              demo_repo demo_tasks demo_options 0) as (_ & _ & _ & H).
  apply (H 1). split.
  - vm_compute. lia.
  - intros [|[|[|j]]] a Hj; vm_compute in Hj;
      [injection Hj as <-; reflexivity ..|destruct j; discriminate].
Defined.

(** C2: for every task [t] of the batch, the request sent to the client
    for it has as title the first 100 units of [t], hence a title of at
    most 100 units, and as body [t] itself when [t] is longer than 100
    units and [Task: ] followed by [t] otherwise. *)
Theorem createGitHubIssues_title_and_body
    W (octokit : Octokit W) owner repo tasks options w i t :
  nth_error tasks i = Some t ->
  exists request,
    nth_error
      (snd (snd (createGitHubIssues (recording octokit) owner repo tasks
                   options (w, []))))
      i = Some request /\
    getProp "title" request = Some (JSString (firstn 100 t)) /\
    List.length (firstn 100 t) <= 100 /\
    getProp "body" request
    = Some (JSString (if 100 <? List.length t then t
                      else lit "Task: " ++ t)).
Proof.
  intros Hi. rewrite createGitHubIssues_run, recording_answers.
  simpl snd. unfold requests_for.
  rewrite nth_error_map, Hi.
  exists (issueParams owner repo (labels_of options) (assignee_of options) t).
  split; [reflexivity|].
  split; [reflexivity|]. split; [|reflexivity].
  rewrite length_firstn. lia.
Qed.

Lemma createGitHubIssues_title_and_body_witness :
  exists request,
    nth_error
      (snd (snd (createGitHubIssues (recording demo_client) demo_owner
                   demo_repo demo_tasks demo_options (0, []))))
      2 = Some request /\
    getProp "title" request = Some (JSString (firstn 100 (lit "Short"))) /\
    List.length (firstn 100 (lit "Short")) <= 100 /\
    getProp "body" request
    = Some (JSString (if 100 <? List.length (lit "Short") then lit "Short"
                      else lit "Task: " ++ lit "Short")).
Proof.
  apply (createGitHubIssues_title_and_body nat demo_client demo_owner demo_repo
           demo_tasks demo_options 0 2 (lit "Short")).
  reflexivity.
Defined.

(** C8, as the code has it: for every task whose issue creation succeeds,
    the record pushed is the object [{number, title, url}] whose values are
    [number], [title] and [html_url] of the client's response; it has no
    [task] property. *)
Theorem createGitHubIssues_success_record
    W (octokit : Octokit W) owner repo tasks options w i task response :
  nth_error tasks i = Some task ->
  nth_error (fst (answers octokit (requests_for owner repo options tasks) w))
    i = Some (Fulfilled response) ->
  exists record,
    nth_error (fst (createGitHubIssues octokit owner repo tasks options w)) i
    = Some record /\
    record = [ prop "number" (JSNumber (number (data response)));
               prop "title" (JSString (title (data response)));
               prop "url" (JSString (html_url (data response))) ] /\
    getProp "task" record = None.
Proof.
  intros Ht Ha. rewrite createGitHubIssues_run. simpl fst.
  eexists. split; [apply (records_nth _ _ _ _ _ Ht Ha)|].
  split; reflexivity.
Qed.

Lemma createGitHubIssues_success_record_witness :
  exists record,
    nth_error
      (fst (createGitHubIssues demo_client demo_owner demo_repo demo_tasks
              demo_options 0)) 0
    = Some record /\
    record = [ prop "number" (JSNumber (S754_finite false 1 0));
               prop "title" (JSString (lit "Buy milk"));
               prop "url" (JSString (lit "https://github.com/o/r/issues")) ]
    /\ getProp "task" record = None.
Proof.
  apply (createGitHubIssues_success_record nat demo_client demo_owner demo_repo
           demo_tasks demo_options 0 0 (lit "Buy milk")
           {| data := {| number := S754_finite false 1 0;
                         title := lit "Buy milk";
                         html_url := lit "https://github.com/o/r/issues"
                      |} |});
    reflexivity.
Defined.

(** C8, as the specification words it, does not hold: the first task of
    the example batch has its issue created, and the record pushed for it
    has no [task] property, so it does not hold the task text. *)
Lemma success_record_lacks_task :
  (exists record,
      nth_error
        (fst (createGitHubIssues demo_client demo_owner demo_repo demo_tasks
                demo_options 0)) 0
      = Some record /\
      is_success_record record = true /\
      getProp "task" record = None) /\
  ~ (forall W (octokit : Octokit W) owner repo tasks options w i task
            response,
        nth_error tasks i = Some task ->
        nth_error
          (fst (answers octokit (requests_for owner repo options tasks) w)) i
        = Some (Fulfilled response) ->
        exists record,
          nth_error
            (fst (createGitHubIssues octokit owner repo tasks options w)) i
          = Some record /\
          getProp "task" record = Some (JSString task)).
Proof.
  split.
  - eexists. split; [vm_compute; reflexivity|].
    split; reflexivity.
  - intros H.
    destruct (H nat demo_client demo_owner demo_repo demo_tasks demo_options
                0 0 (lit "Buy milk")
                {| data := {| number := S754_finite false 1 0;
                              title := lit "Buy milk";
                              html_url := lit "https://github.com/o/r/issues"
                           |} |} eq_refl eq_refl)
      as (record & Hn & Ht).
    vm_compute in Hn. injection Hn as <-. discriminate.
Qed.

(** * Further properties of the extraction rules *)

Module RuleFacts.

Lemma trimStart_id s :
  (forall c s', s = c :: s' -> isSpace c = false) -> trimStart s = s.
Proof.
  destruct s as [|c s]; intros H; simpl; [reflexivity|].
  rewrite (H c s eq_refl). reflexivity.
Qed.

Lemma trim_id s : trimmed s -> trim s = s.
Proof.
  intros [Hfirst Hlast]. unfold trim, trimEnd.
  rewrite (trimStart_id s Hfirst).
  rewrite trimStart_id; [apply rev_involutive|].
  intros c s' E. apply (Hlast c (rev s')).
  rewrite <- (rev_involutive s), E. reflexivity.
Qed.

(** A greedy run over units of the class, stopped by a unit outside it
    (or by the end), hands over to the continuation right there when the
    continuation accepts. *)
Lemma greedy_run p k g run rest m : forall i,
  forallb p run = true ->
  match rest with c :: _ => p c = false | [] => True end ->
  k (MState (i + List.length run) rest g) = Some m ->
  greedy p k i g (run ++ rest) = Some m.
Proof.
  induction run as [|c run IH]; intros i Hrun Hrest Hk; simpl in *.
  - rewrite Nat.add_0_r in Hk.
    destruct rest as [|c rest]; simpl; [exact Hk|].
    rewrite Hrest. exact Hk.
  - apply andb_true_iff in Hrun. destruct Hrun as [Hc Hrun].
    rewrite Hc, (IH (S i) Hrun Hrest); [reflexivity|].
    replace (S i + List.length run) with (i + S (List.length run)) by lia.
    exact Hk.
Qed.

Lemma trimmed_head content :
  trimmed content ->
  match content with c :: _ => isSpace c = false | [] => True end.
Proof.
  intros [H _]. destruct content as [|c s]; [exact I|].
  apply (H c s eq_refl).
Qed.

(** White space, then content up to the end of the line. *)
Lemma spaces_then_content ws content i :
  ws <> [] -> forallb isSpace ws = true ->
  trimmed content -> content <> [] -> forallb isDot content = true ->
  exists m,
    rmatch (Plus isSpace >> tail_re)%re Some (MState i (ws ++ content) None)
    = Some m /\ grp1 m = Some content.
Proof.
  intros Hws Hsp Ht Hne Hdot.
  destruct ws as [|w ws]; [congruence|]. simpl in Hsp.
  apply andb_true_iff in Hsp. destruct Hsp as [Hw Hsp].
  eexists. split.
  - cbn [rmatch rest app idx grp1]. rewrite Hw.
    apply greedy_run; [exact Hsp|apply trimmed_head; exact Ht|].
    rewrite tail_spec, Hdot.
    destruct content; [congruence|]. reflexivity.
  - reflexivity.
Qed.

Lemma numbered_match digits ws content :
  digits <> [] -> forallb isDigit digits = true ->
  ws <> [] -> forallb isSpace ws = true ->
  trimmed content -> content <> [] -> forallb isDot content = true ->
  exists m,
    str_match (digits ++ [FULL_STOP] ++ ws ++ content) numberedRe = Some m
    /\ grp1 m = Some content.
Proof.
  intros Hd Hdig Hws Hsp Ht Hne Hdot.
  destruct digits as [|d digits]; [congruence|]. simpl in Hdig.
  apply andb_true_iff in Hdig. destruct Hdig as [Hd0 Hdig].
  destruct (spaces_then_content ws content
              (S (1 + List.length digits)) Hws Hsp Ht Hne Hdot)
    as (m & Hm & Hg).
  exists m. split; [|exact Hg].
  rewrite numberedRe_match. cbn [app]. rewrite Hd0.
  apply greedy_run; [exact Hdig|reflexivity|].
  exact Hm.
Qed.

Lemma bullet_match glyph ws content :
  isBulletGlyph glyph = true ->
  ws <> [] -> forallb isSpace ws = true ->
  trimmed content -> content <> [] -> forallb isDot content = true ->
  exists m,
    str_match (glyph :: ws ++ content) bulletRe = Some m
    /\ grp1 m = Some content.
Proof.
  intros Hg Hws Hsp Ht Hne Hdot.
  destruct (spaces_then_content ws content 1 Hws Hsp Ht Hne Hdot)
    as (m & Hm & Hgrp).
  exists m. split; [|exact Hgrp].
  unfold bulletRe. rewrite str_match_anchored.
  cbn [rmatch rest idx grp1]. rewrite Hg. exact Hm.
Qed.

Lemma numbered_needs_digit c s :
  isDigit c = false -> str_match (c :: s) numberedRe = None.
Proof. intros H. rewrite numberedRe_match, H. reflexivity. Qed.

Lemma bullet_needs_glyph c s :
  isBulletGlyph c = false -> str_match (c :: s) bulletRe = None.
Proof.
  intros H. rewrite bulletRe_match. destruct s; [reflexivity|].
  rewrite H. reflexivity.
Qed.

Lemma dash_needs_hyphen c s :
  unit_is HYPHEN c = false -> str_match (c :: s) dashRe = None.
Proof. intros H. rewrite dashRe_match, H. reflexivity. Qed.

Lemma glyph_not_digit c : isBulletGlyph c = true -> isDigit c = false.
Proof.
  unfold isBulletGlyph, unit_is, isDigit, BULLET, HYPHEN, ASTERISK.
  intros H. apply orb_true_iff in H. destruct H as [H|H];
    [apply orb_true_iff in H; destruct H as [H|H]|];
    apply N.eqb_eq in H; subst c; reflexivity.
Qed.

Lemma split_length sep s :
  List.length (split sep s) = S (count_occ N.eq_dec s sep).
Proof.
  induction s as [|c s IH]; [reflexivity|].
  cbn [split count_occ]. destruct (N.eqb_spec c sep) as [->|Hne].
  - destruct (N.eq_dec sep sep); [|congruence]. simpl. congruence.
  - destruct (N.eq_dec c sep); [congruence|].
    destruct (split sep s); simpl in *; [discriminate|exact IH].
Qed.

Lemma split_app sep a b :
  split sep (a ++ sep :: b) = split sep a ++ split sep b.
Proof.
  induction a as [|c a IH]; simpl.
  - rewrite N.eqb_refl. reflexivity.
  - rewrite IH. destruct (N.eqb c sep); [reflexivity|].
    pose proof (split_length sep a) as Hl.
    destruct (split sep a); [discriminate|reflexivity].
Qed.

Lemma lines_of_app a b :
  lines_of (a ++ LF :: b) = lines_of a ++ lines_of b.
Proof.
  unfold lines_of. rewrite split_app, map_app, filter_app. reflexivity.
Qed.

Lemma raw_tasks_app rule3 l1 l2 :
  raw_tasks rule3 (l1 ++ l2) = raw_tasks rule3 l1 ++ raw_tasks rule3 l2.
Proof. unfold raw_tasks. apply flat_map_app. Qed.

Lemma raw_tasks_length rule3 lines :
  List.length (raw_tasks rule3 lines) <= List.length lines.
Proof.
  induction lines as [|line lines IH]; [simpl; lia|].
  rewrite raw_tasks_cons, length_app. simpl.
  destruct (produced rule3 line); simpl; lia.
Qed.

Lemma filter_from_length {A} (f : A -> nat -> list A -> bool) self l :
  forall i, List.length (filter_from f self i l) <= List.length l.
Proof.
  induction l as [|x l IH]; intros i; simpl; [lia|].
  destruct (f x i self); simpl; specialize (IH (S i)); lia.
Qed.

Lemma filter_from_app {A} (f : A -> nat -> list A -> bool) self l1 l2 :
  forall i,
    filter_from f self i (l1 ++ l2)
    = filter_from f self i l1
      ++ filter_from f self (i + List.length l1) l2.
Proof.
  induction l1 as [|x l1 IH]; intros i; simpl.
  - rewrite Nat.add_0_r. reflexivity.
  - rewrite IH. replace (S i + List.length l1)
      with (i + S (List.length l1)) by lia.
    destruct (f x i self); reflexivity.
Qed.

Lemma filter_from_ext {A} (f : A -> nat -> list A -> bool) self self' l :
  forall i,
    (forall m x, nth_error l m = Some x ->
                 f x (i + m) self = f x (i + m) self') ->
    filter_from f self i l = filter_from f self' i l.
Proof.
  induction l as [|x l IH]; intros i H; simpl; [reflexivity|].
  pose proof (H 0 x eq_refl) as H0. rewrite Nat.add_0_r in H0.
  rewrite H0, (IH (S i)); [reflexivity|].
  intros m y Hm. replace (S i + m) with (i + S m) by lia.
  apply H. exact Hm.
Qed.

Lemma indexOf_from_app x y e : forall i,
  In e x -> indexOf_from i (x ++ y) e = indexOf_from i x e.
Proof.
  induction x as [|z x IH]; intros i Hin; [destruct Hin|].
  simpl. destruct (JsStr.eqb z e) eqn:E; [reflexivity|].
  destruct Hin as [->|Hin]; [rewrite eqb_refl in E; discriminate|].
  apply IH. exact Hin.
Qed.

(** Tasks pushed later never change what was kept of the earlier ones. *)
Lemma dedup_app x y :
  dedup (x ++ y)
  = dedup x ++ filter_from first_nonempty (x ++ y) (List.length x) y.
Proof.
  unfold dedup, filter_indexed. rewrite filter_from_app. f_equal.
  apply filter_from_ext. intros m e Hm. unfold first_nonempty, indexOf.
  rewrite indexOf_from_app; [reflexivity|].
  eapply nth_error_In; exact Hm.
Qed.

(** A literal that is its own [trim] is trimmed. *)
Ltac trimmed_literal :=
  match goal with
  | |- trimmed ?s => change s with (trim s); apply trim_trimmed
  end.

End RuleFacts.
Import RuleFacts.

(** X1: [extractTasksFromText] returns at most one task per non-blank
    line, hence never more tasks than the text has lines (one more than it
    has line feeds). *)
Theorem extractTasksFromText_at_most_one_per_line (s : jsstring) :
  exists tasks,
    extractTasksFromText (JSString s) = Normal tasks /\
    List.length tasks <= List.length (lines_of s) /\
    List.length (lines_of s) <= S (count_occ N.eq_dec s LF).
Proof.
  exists (dedup (raw_tasks true (lines_of s))).
  split; [apply extract_string|]. split.
  - unfold dedup, filter_indexed.
    pose proof (filter_from_length first_nonempty
                  (raw_tasks true (lines_of s))
                  (raw_tasks true (lines_of s)) 0).
    pose proof (raw_tasks_length true (lines_of s)). lia.
  - unfold lines_of. rewrite <- split_length.
    pose proof (filter_length_le nonempty (map trim (split LF s))) as H.
    rewrite length_map in H. exact H.
Qed.

(** X2: on a line made of digits, a full stop, white space and then
    content (content that is trimmed and has no line terminator in it), one
    turn of the loop pushes exactly the content: the whole marker and the
    white space after it are dropped, whether or not the dash rule is
    there. *)
Theorem numbered_line_pushes_content rule3 tasks digits ws content :
  digits <> [] -> forallb isDigit digits = true ->
  ws <> [] -> forallb isSpace ws = true ->
  trimmed content -> content <> [] -> forallb isDot content = true ->
  for_line rule3 tasks (digits ++ [FULL_STOP] ++ ws ++ content)
  = Normal (tasks ++ [content]).
Proof.
  intros Hd Hdig Hws Hsp Ht Hne Hdot.
  destruct (numbered_match digits ws content Hd Hdig Hws Hsp Ht Hne Hdot)
    as (m & Hm & Hg).
  unfold for_line, group1_trim, push. rewrite Hm, Hg. simpl.
  rewrite (trim_id content Ht). reflexivity.
Qed.

Lemma numbered_line_pushes_content_witness :
  for_line true [lit "Buy milk"]
    (lit "12" ++ [FULL_STOP] ++ lit "  " ++ lit "Call Bob")
  = Normal ([lit "Buy milk"] ++ [lit "Call Bob"]).
Proof.
  apply (numbered_line_pushes_content true [lit "Buy milk"] (lit "12")
           (lit "  ") (lit "Call Bob"));
    try discriminate; try reflexivity.
  trimmed_literal.
Defined.

(** X3: on a line made of one bullet glyph (bullet dot, hyphen or
    asterisk), white space and then content (trimmed, no line terminator),
    one turn of the loop pushes exactly the content. *)
Theorem bullet_line_pushes_content rule3 tasks glyph ws content :
  isBulletGlyph glyph = true ->
  ws <> [] -> forallb isSpace ws = true ->
  trimmed content -> content <> [] -> forallb isDot content = true ->
  for_line rule3 tasks (glyph :: ws ++ content)
  = Normal (tasks ++ [content]).
Proof.
  intros Hg Hws Hsp Ht Hne Hdot.
  destruct (bullet_match glyph ws content Hg Hws Hsp Ht Hne Hdot)
    as (m & Hm & Hgrp).
  unfold for_line, group1_trim, push.
  rewrite (numbered_needs_digit glyph (ws ++ content)
             (glyph_not_digit glyph Hg)).
  rewrite Hm, Hgrp. simpl. rewrite (trim_id content Ht). reflexivity.
Qed.

Lemma bullet_line_pushes_content_witness :
  for_line false [] (BULLET :: lit " " ++ lit "Call Bob")
  = Normal ([] ++ [lit "Call Bob"]).
Proof.
  apply (bullet_line_pushes_content false [] BULLET (lit " ")
           (lit "Call Bob"));
    try discriminate; try reflexivity.
  trimmed_literal.
Defined.

(** X4: on a line made of a hyphen directly followed by content (trimmed,
    no line terminator), the loop with the dash rule pushes the content
    without the hyphen; the loop without it treats the line as a plain
    line and pushes the whole line, hyphen included, when the line is
    longer than 3 units and does not end with a colon, and nothing
    otherwise. *)
Theorem tight_hyphen_line tasks content :
  trimmed content -> content <> [] -> forallb isDot content = true ->
  for_line true tasks (HYPHEN :: content) = Normal (tasks ++ [content]) /\
  for_line false tasks (HYPHEN :: content)
  = if (3 <? List.length (HYPHEN :: content))
       && negb (endsWith COLON (HYPHEN :: content))
    then Normal (tasks ++ [HYPHEN :: content])
    else Normal tasks.
Proof.
  intros Ht Hne Hdot. destruct content as [|c s]; [congruence|].
  assert (Hc : isSpace c = false) by (apply (proj1 Ht c s eq_refl)).
  split.
  - rewrite (rule3_fires tasks c s Hc Hdot), (trim_id (c :: s) Ht).
    reflexivity.
  - unfold for_line.
    rewrite (numbered_needs_digit HYPHEN (c :: s) eq_refl).
    rewrite bulletRe_match.
    change (isBulletGlyph HYPHEN) with true. cbv iota. rewrite Hc.
    reflexivity.
Qed.

Lemma tight_hyphen_line_witness :
  for_line true [] (HYPHEN :: lit "ab") = Normal ([] ++ [lit "ab"]) /\
  for_line false [] (HYPHEN :: lit "ab")
  = if (3 <? List.length (HYPHEN :: lit "ab"))
       && negb (endsWith COLON (HYPHEN :: lit "ab"))
    then Normal ([] ++ [HYPHEN :: lit "ab"])
    else Normal [].
Proof.
  apply (tight_hyphen_line [] (lit "ab"));
    try discriminate; try reflexivity.
  trimmed_literal.
Defined.

(** X5: a line whose first unit is neither a digit nor a bullet glyph is a
    plain line: one turn of the loop pushes the line itself when it is
    longer than 3 units and does not end with a colon, and pushes nothing
    otherwise. *)
Theorem plain_line rule3 tasks c s :
  isDigit c = false -> isBulletGlyph c = false ->
  for_line rule3 tasks (c :: s)
  = if (3 <? List.length (c :: s)) && negb (endsWith COLON (c :: s))
    then Normal (tasks ++ [c :: s])
    else Normal tasks.
Proof.
  intros Hd Hg. unfold for_line.
  rewrite (numbered_needs_digit c s Hd), (bullet_needs_glyph c s Hg).
  assert (Hh : unit_is HYPHEN c = false).
  { destruct (unit_is HYPHEN c) eqn:E; [|reflexivity].
    rewrite (hyphen_is_bullet c E) in Hg. discriminate. }
  rewrite (dash_needs_hyphen c s Hh).
  destruct rule3; reflexivity.
Qed.

Lemma plain_line_witness :
  for_line true [] (lit "Summary:")
  = if (3 <? List.length (lit "Summary:"))
       && negb (endsWith COLON (lit "Summary:"))
    then Normal ([] ++ [lit "Summary:"])
    else Normal [].
Proof.
  apply (plain_line true [] 83%N (lit "ummary:")); reflexivity.
Defined.

(** X6: adding lines at the end of a text never changes or reorders the
    tasks already extracted: the tasks of [a], a line feed, then [b] start
    with the tasks of [a], and are, as a set, the tasks of [a] together
    with those of [b]. *)
Theorem extractTasksFromText_appending_lines (a b : jsstring) :
  exists ta tb extra,
    extractTasksFromText (JSString a) = Normal ta /\
    extractTasksFromText (JSString b) = Normal tb /\
    extractTasksFromText (JSString (a ++ LF :: b)) = Normal (ta ++ extra) /\
    (forall t, In t (ta ++ extra) <-> In t ta \/ In t tb).
Proof.
  exists (dedup (raw_tasks true (lines_of a))),
         (dedup (raw_tasks true (lines_of b))),
         (filter_from first_nonempty
            (raw_tasks true (lines_of a) ++ raw_tasks true (lines_of b))
            (List.length (raw_tasks true (lines_of a)))
            (raw_tasks true (lines_of b))).
  split; [apply extract_string|]. split; [apply extract_string|].
  rewrite <- dedup_app, <- raw_tasks_app, <- lines_of_app.
  split; [apply extract_string|].
  intros t. rewrite lines_of_app, raw_tasks_app, !dedup_In, in_app_iff.
  tauto.
Qed.

(** * Further properties of the fan-out *)

(** X7: a batch can be cut anywhere: creating the issues of [ts1 ++ ts2]
    gives the records of [ts1] followed by the records of [ts2] created
    from the world the first part left, and ends in the same world. *)
Theorem createGitHubIssues_batches
    W (octokit : Octokit W) owner repo ts1 ts2 options w :
  createGitHubIssues octokit owner repo (ts1 ++ ts2) options w
  = (fst (createGitHubIssues octokit owner repo ts1 options w)
     ++ fst (createGitHubIssues octokit owner repo ts2 options
               (snd (createGitHubIssues octokit owner repo ts1 options w))),
     snd (createGitHubIssues octokit owner repo ts2 options
            (snd (createGitHubIssues octokit owner repo ts1 options w)))).
Proof.
  unfold createGitHubIssues. rewrite fold_left_app.
  rewrite (fold_for_task W octokit owner repo _ _ ts1 [] w).
  rewrite !fold_for_task. reflexivity.
Qed.

(** X8: every request of one batch carries the same repository, labels
    and assignee: [owner] and [repo] as given, [labels] always an array
    (the one of the options when it is an array, the empty array when it
    is absent or is anything else, such as a single string), and
    [assignees] present, holding the one assignee, exactly when the
    assignee of the options is truthy. *)
Theorem createGitHubIssues_uniform_requests
    W (octokit : Octokit W) owner repo ts options w request :
  In request
    (snd (snd (createGitHubIssues (recording octokit) owner repo ts options
                 (w, [])))) ->
  getProp "owner" request = Some owner /\
  getProp "repo" request = Some repo /\
  getProp "labels" request
  = Some (if isArray (opt_labels options) then opt_labels options
          else JSArray []) /\
  getProp "assignees" request
  = if truthy (opt_assignee options)
    then Some (JSArray [opt_assignee options]) else None.
Proof.
  rewrite createGitHubIssues_run, recording_answers. simpl snd.
  unfold requests_for. rewrite in_map_iff.
  intros (t & <- & _). unfold issueParams, labels_of, assignee_of.
  repeat split.
  - destruct (opt_labels options); reflexivity.
  - destruct (opt_assignee options) as [| |b|x|z|s|i|i|l|o]; try reflexivity.
    + destruct b; reflexivity.
    + destruct x; reflexivity.
    + destruct z; reflexivity.
    + destruct s; reflexivity.
Qed.

Lemma createGitHubIssues_uniform_requests_witness :
  getProp "owner"
    (issueParams demo_owner demo_repo (JSArray []) JSNull (lit "Short"))
  = Some demo_owner /\
  getProp "repo"
    (issueParams demo_owner demo_repo (JSArray []) JSNull (lit "Short"))
  = Some demo_repo /\
  getProp "labels"
    (issueParams demo_owner demo_repo (JSArray []) JSNull (lit "Short"))
  = Some (if isArray (opt_labels demo_options) then opt_labels demo_options
          else JSArray []) /\
  getProp "assignees"
    (issueParams demo_owner demo_repo (JSArray []) JSNull (lit "Short"))
  = if truthy (opt_assignee demo_options)
    then Some (JSArray [opt_assignee demo_options]) else None.
Proof.
  apply (createGitHubIssues_uniform_requests nat demo_client demo_owner
           demo_repo demo_tasks demo_options 0).
  vm_compute. right; right; left; reflexivity.
Defined.

(** * The upload controller *)

Module UploadFacts.

Import Upload MoreNotions.

Lemma unlinked_app l1 l2 : unlinked (l1 ++ l2) = unlinked l1 ++ unlinked l2.
Proof. apply flat_map_app. Qed.

Lemma issues_requested_app l1 l2 :
  issues_requested (l1 ++ l2) = issues_requested l1 ++ issues_requested l2.
Proof. apply flat_map_app. Qed.

Lemma unlinked_creates auth requests :
  unlinked (map (EvIssuesCreate auth) requests) = [].
Proof. induction requests; simpl; auto. Qed.

Lemma issues_requested_creates auth requests :
  issues_requested (map (EvIssuesCreate auth) requests)
  = map (fun request => (auth, request)) requests.
Proof.
  induction requests as [|r requests IH]; [reflexivity|].
  cbn [map]. change (issues_requested (EvIssuesCreate auth r :: ?l))
    with ((auth, r) :: issues_requested l).
  unfold issues_requested at 1. cbn [flat_map app].
  f_equal. exact IH.
Qed.

Section Traced.

Variable W : Type.
Variable platform : Platform W.

Lemma traced_answers auth requests : forall w log,
  answers (new_Octokit (traced platform) auth) requests (w, log)
  = (fst (answers (new_Octokit platform auth) requests w),
     (snd (answers (new_Octokit platform auth) requests w),
      log ++ map (EvIssuesCreate auth) requests)).
Proof.
  induction requests as [|r requests IH]; intros w log; simpl.
  - rewrite app_nil_r. reflexivity.
  - unfold logged.
    destruct (issues_create (new_Octokit platform auth) r w) as [a w'].
    simpl. rewrite IH.
    destruct (answers (new_Octokit platform auth) requests w')
      as [ans w''].
    simpl. rewrite <- app_assoc. reflexivity.
Qed.

(** Tracing changes the log and nothing else. *)
Lemma traced_createGitHubIssues auth owner repo ts options w log :
  createGitHubIssues (new_Octokit (traced platform) auth) owner repo ts
    options (w, log)
  = (fst (createGitHubIssues (new_Octokit platform auth) owner repo ts
            options w),
     (snd (createGitHubIssues (new_Octokit platform auth) owner repo ts
             options w),
      log ++ map (EvIssuesCreate auth) (requests_for owner repo options ts))).
Proof.
  rewrite !createGitHubIssues_run, traced_answers. reflexivity.
Qed.

Lemma traced_parseWordDocument filePath w log :
  exists log',
    parseWordDocument (traced platform) filePath (w, log)
    = (fst (parseWordDocument platform filePath w),
       (snd (parseWordDocument platform filePath w), log ++ log')) /\
    unlinked log' = [] /\ issues_requested log' = [].
Proof.
  unfold parseWordDocument. simpl. unfold logged.
  destruct (fs_readFile platform filePath w) as [[buffer|error] w1]; simpl.
  - destruct (mammoth_extractRawText platform (FromBuffer buffer) w1)
      as [[result|error] w2]; simpl.
    + exists [EvReadFile filePath; EvExtractRawText (FromBuffer buffer)].
      rewrite <- app_assoc. simpl.
      destruct (extractTasksFromText _); simpl; auto.
    + exists [EvReadFile filePath; EvExtractRawText (FromBuffer buffer)].
      rewrite <- app_assoc. simpl. auto.
  - exists [EvReadFile filePath]. auto.
Qed.

Lemma traced_unlink_quietly p w log :
  unlink_quietly (traced platform) p (w, log)
  = (unlink_quietly platform p w, log ++ [EvUnlink p]).
Proof. reflexivity. Qed.

(** The parser fails only when reading or converting fails. *)
Lemma parseWordDocument_spec filePath w :
  match fs_readFile platform filePath w with
  | (Throw error, w1) =>
      parseWordDocument platform filePath w
      = (Throw (parse_failure error), w1)
  | (Normal buffer, w1) =>
      match mammoth_extractRawText platform (FromBuffer buffer) w1 with
      | (Throw error, w2) =>
          parseWordDocument platform filePath w
          = (Throw (parse_failure error), w2)
      | (Normal result, w2) =>
          parseWordDocument platform filePath w
          = (Normal {| text := value result;
                       tasks := dedup (raw_tasks true
                                         (lines_of (value result))) |},
             w2)
      end
  end.
Proof.
  unfold parseWordDocument.
  destruct (fs_readFile platform filePath w) as [[buffer|error] w1];
    [|reflexivity].
  destruct (mammoth_extractRawText platform (FromBuffer buffer) w1)
    as [[result|error] w2]; [|reflexivity].
  replace (if nonempty (value result) then value result else lit "")
    with (value result) by (destruct (value result); reflexivity).
  unfold extractTasksFromText. rewrite extract_string. reflexivity.
Qed.

End Traced.




End UploadFacts.

Import Upload MoreNotions UploadFacts.

(** X9: the controller deletes the uploaded file exactly when it answers
    201, or answers 500 and the file has a path; on every 400 and 401
    answer, also those given after the document was read and parsed, the
    file is left where multer put it.  Observing the calls does not change
    the reply. *)
Theorem uploadFile_deletes_file_only_on_201_and_500
    W (platform : Platform W) req w :
  upload_reply platform req w = fst (uploadFile platform req w) /\
  unlinked (upload_log platform req w)
  = match file req with
    | None => []
    | Some f =>
        if Nat.eqb (status (upload_reply platform req w)) 201
           || (Nat.eqb (status (upload_reply platform req w)) 500
               && truthy (path f))
        then [path f] else []
    end.
Proof.
  unfold upload_reply, upload_log, uploadFile.
  destruct (file req) as [f|] eqn:Ef; [|split; reflexivity].
  destruct (includes allowedMimes (mimetype f)); [|split; reflexivity].
  cbn [negb].
  destruct (traced_parseWordDocument W platform (path f) w [])
    as (log' & E & U & I).
  rewrite E. clear E.
  destruct (parseWordDocument platform (path f) w) as [[parsed|error] w1];
    cbn [fst snd].
  - destruct (Nat.eqb (List.length (tasks parsed)) 0);
      [split; [reflexivity|exact U]|].
    cbn [env_GITHUB_TOKEN traced].
    destruct (truthy (js_or (header_x_github_token req)
                        (env_GITHUB_TOKEN platform)));
      [|split; [reflexivity|exact U]].
    cbn [negb].
    destruct (negb (truthy (body_owner req))
              || negb (truthy (body_repo req)));
      [split; [reflexivity|exact U]|].
    rewrite traced_createGitHubIssues.
    destruct (createGitHubIssues _ _ _ _ _ w1) as [createdIssues w2].
    cbn [fst snd]. rewrite traced_unlink_quietly. cbn [fst snd].
    split; [reflexivity|].
    rewrite !unlinked_app, U, unlinked_creates. reflexivity.
  - unfold upload_catch. rewrite Ef.
    destruct (truthy (path f)); cbn [fst snd status].
    + rewrite traced_unlink_quietly. cbn [fst snd].
      split; [reflexivity|]. rewrite !unlinked_app, U. reflexivity.
    + split; [reflexivity|exact U].
Qed.

Module UploadCases.

(** The two ways an upload can end, with what each one leaves in the log. *)
Lemma upload_traced_cases W (platform : Platform W) req w :
  (status (upload_reply platform req w) <> 201 /\
   issues_requested (upload_log platform req w) = []) \/
  (exists f parsed w1,
      file req = Some f /\
      parseWordDocument platform (path f) w = (Normal parsed, w1) /\
      tasks parsed <> [] /\
      truthy (upload_token platform req) = true /\
      status (upload_reply platform req w) = 201 /\
      issues_requested (upload_log platform req w)
      = map (fun request => (upload_token platform req, request))
          (requests_for (body_owner req) (body_repo req)
             (upload_options req) (tasks parsed))).
Proof.
  unfold upload_reply, upload_log, upload_token, uploadFile.
  destruct (file req) as [f|] eqn:Ef;
    [|left; split; [discriminate|reflexivity]].
  destruct (includes allowedMimes (mimetype f));
    [|left; split; [discriminate|reflexivity]].
  cbn [negb].
  destruct (traced_parseWordDocument W platform (path f) w [])
    as (log' & E & U & I).
  rewrite E. clear E.
  destruct (parseWordDocument platform (path f) w) as [[parsed|error] w1]
    eqn:Ep; cbn [fst snd].
  - destruct (Nat.eqb (List.length (tasks parsed)) 0) eqn:En;
      [left; split; [discriminate|exact I]|].
    cbn [env_GITHUB_TOKEN traced].
    destruct (truthy (js_or (header_x_github_token req)
                        (env_GITHUB_TOKEN platform))) eqn:Et;
      [|left; split; [discriminate|exact I]].
    cbn [negb].
    destruct (negb (truthy (body_owner req))
              || negb (truthy (body_repo req)));
      [left; split; [discriminate|exact I]|].
    right. exists f, parsed, w1.
    split; [reflexivity|]. split; [exact Ep|]. split.
    { intros H. rewrite H in En. discriminate. }
    split; [reflexivity|].
    rewrite traced_createGitHubIssues.
    destruct (createGitHubIssues _ _ _ _ _ w1) as [createdIssues w2].
    cbn [fst snd]. rewrite traced_unlink_quietly. cbn [fst snd].
    split; [reflexivity|].
    rewrite !issues_requested_app, I, issues_requested_creates.
    cbn [app issues_requested flat_map]. rewrite app_nil_r. reflexivity.
  - left. unfold upload_catch. rewrite Ef.
    destruct (truthy (path f)); cbn [fst snd status].
    + rewrite traced_unlink_quietly. cbn [fst snd].
      split; [discriminate|].
      rewrite !issues_requested_app, I. reflexivity.
    + split; [discriminate|exact I].
Qed.

Lemma parsed_tasks W (platform : Platform W) filePath w parsed w1 :
  parseWordDocument platform filePath w = (Normal parsed, w1) ->
  tasks parsed = dedup (raw_tasks true (lines_of (text parsed))).
Proof.
  intros H. pose proof (parseWordDocument_spec W platform filePath w) as S.
  destruct (fs_readFile platform filePath w) as [[buffer|error] w0];
    [|rewrite S in H; discriminate].
  destruct (mammoth_extractRawText platform (FromBuffer buffer) w0)
    as [[result|error] w2]; [|rewrite S in H; discriminate].
  rewrite S in H. injection H as <- _. reflexivity.
Qed.

Lemma dedup_task_wellformed lines t :
  (forall line, In line lines -> trimmed line) ->
  In t (dedup (raw_tasks true lines)) -> t <> [] /\ trimmed t.
Proof.
  intros Hl Ht. apply dedup_In in Ht. destruct Ht as [Hraw Hne].
  split; [exact Hne|].
  apply raw_tasks_In in Hraw. destruct Hraw as (line & Hin & Hp).
  eapply produced_trimmed; [apply Hl; exact Hin|exact Hp].
Qed.

End UploadCases.
Import UploadCases.

(** X10: the controller calls GitHub only on the way to a 201 answer, and
    then once per extracted task, in the order of the tasks, each call with
    the request of that task and authenticated with the token of the
    header when that is truthy and of the environment otherwise; an upload
    answered with any other status has created no issue. *)
Theorem uploadFile_calls_github_only_on_201
    W (platform : Platform W) req w :
  issues_requested (upload_log platform req w)
  = match file req with
    | None => []
    | Some f =>
        match fst (parseWordDocument platform (path f) w) with
        | Throw _ => []
        | Normal parsed =>
            if Nat.eqb (status (upload_reply platform req w)) 201
            then map (fun request => (upload_token platform req, request))
                   (requests_for (body_owner req) (body_repo req)
                      (upload_options req) (tasks parsed))
            else []
        end
    end.
Proof.
  destruct (upload_traced_cases W platform req w)
    as [[Hs Hl]|(f & parsed & w1 & Ef & Ep & _ & _ & Hs & Hl)].
  - rewrite Hl. destruct (file req) as [f|]; [|reflexivity].
    destruct (fst (parseWordDocument platform (path f) w));
      [|reflexivity].
    apply Nat.eqb_neq in Hs. rewrite Hs. reflexivity.
  - rewrite Hl, Ef, Ep, Hs. reflexivity.
Qed.

(** X11: every request an upload sends to GitHub is authenticated with a
    truthy token and has a title that is not empty, is at most 100 units
    long and does not start with white space. *)
Theorem uploadFile_sends_wellformed_titles
    W (platform : Platform W) req w auth request :
  In (auth, request) (issues_requested (upload_log platform req w)) ->
  truthy auth = true /\
  exists title,
    getProp "title" request = Some (JSString title) /\
    title <> [] /\
    List.length title <= 100 /\
    (forall c s, title = c :: s -> isSpace c = false).
Proof.
  destruct (upload_traced_cases W platform req w)
    as [[_ Hl]|(f & parsed & w1 & _ & Ep & _ & Ht & _ & Hl)];
    rewrite Hl; [intros []|].
  rewrite in_map_iff. intros (r & E & Hin).
  injection E as <- <-. split; [exact Ht|].
  unfold requests_for in Hin. apply in_map_iff in Hin.
  destruct Hin as (t & <- & Hin).
  rewrite (parsed_tasks W platform _ _ _ _ Ep) in Hin.
  apply dedup_task_wellformed in Hin;
    [|intros line Hline; apply (lines_of_spec _ _ Hline)].
  destruct Hin as [Hne [Hfirst _]].
  exists (firstn 100 t). split; [reflexivity|].
  destruct t as [|c t]; [congruence|].
  split; [discriminate|]. split; [rewrite length_firstn; lia|].
  intros c' s E. injection E as <- _. apply (Hfirst c t eq_refl).
Qed.

Lemma uploadFile_sends_wellformed_titles_witness :
  truthy (JSString (lit "ghp_token")) = true /\
  exists title,
    getProp "title"
      (issueParams demo_owner demo_repo (JSArray []) JSNull (lit "Buy milk"))
    = Some (JSString title) /\
    title <> [] /\
    List.length title <= 100 /\
    (forall c s, title = c :: s -> isSpace c = false).
Proof.
  apply (uploadFile_sends_wellformed_titles nat (demo_platform spec_sample)
           demo_request 0).
  vm_compute. left; reflexivity.
Defined.

Module UploadReplies.


Lemma upload_500 W (platform : Platform W) req w :
  status (fst (uploadFile platform req w)) = 500 ->
  exists f error,
    file req = Some f /\
    fst (parseWordDocument platform (path f) w) = Throw error /\
    json (fst (uploadFile platform req w))
    = [ prop "success" (JSBoolean false);
        prop "error"
          (js_or (JSString (message error))
             (JSString (lit "An error occurred during file processing")))
      ].
Proof.
  unfold uploadFile.
  destruct (file req) as [f|] eqn:Ef; [|discriminate].
  destruct (includes allowedMimes (mimetype f)); [|discriminate].
  cbn [negb].
  destruct (parseWordDocument platform (path f) w) as [[parsed|error] w1]
    eqn:Ep.
  - destruct (Nat.eqb (List.length (tasks parsed)) 0); [discriminate|].
    destruct (truthy (js_or (header_x_github_token req)
                        (env_GITHUB_TOKEN platform))); [|discriminate].
    cbn [negb].
    destruct (negb (truthy (body_owner req))
              || negb (truthy (body_repo req))); [discriminate|].
    destruct (createGitHubIssues _ _ _ _ _ w1) as [createdIssues w2].
    discriminate.
  - intros _. exists f, error. split; [reflexivity|].
    split; [rewrite Ep; reflexivity|].
    unfold upload_catch. rewrite Ef.
    destruct (truthy (path f)); reflexivity.
Qed.

End UploadReplies.
Import UploadReplies.



(** X13: a 500 answer always reports a failure to read or to convert the
    document: the file could not be read, or mammoth rejected it, and the
    [error] of the answer is [Failed to parse Word document: ] followed by
    the message of that failure; the fallback text is never sent. *)
Theorem uploadFile_500_reports_parse_failure
    W (platform : Platform W) req w :
  status (fst (uploadFile platform req w)) = 500 ->
  exists f error,
    file req = Some f /\
    (fst (fs_readFile platform (path f) w) = Throw error \/
     exists buffer,
       fst (fs_readFile platform (path f) w) = Normal buffer /\
       fst (mammoth_extractRawText platform (FromBuffer buffer)
              (snd (fs_readFile platform (path f) w)))
       = Throw error) /\
    getProp "error" (json (fst (uploadFile platform req w)))
    = Some (JSString
              (lit "Failed to parse Word document: " ++ message error)).
Proof.
  intros H.
  destruct (upload_500 W platform req w H) as (f & error' & Ef & Ep & Hj).
  pose proof (parseWordDocument_spec W platform (path f) w) as S.
  destruct (fs_readFile platform (path f) w) as [[buffer|error] w0] eqn:Er.
  - destruct (mammoth_extractRawText platform (FromBuffer buffer) w0)
      as [[result|error] w2] eqn:Em; rewrite S in Ep; [discriminate|].
    injection Ep as <-. exists f, error. split; [exact Ef|]. split.
    + right. exists buffer. rewrite Er. cbn [fst snd]. rewrite Em. auto.
    + rewrite Hj. reflexivity.
  - rewrite S in Ep. injection Ep as <-.
    exists f, error. split; [exact Ef|]. split.
    + left. rewrite Er. reflexivity.
    + rewrite Hj. reflexivity.
Qed.

Lemma uploadFile_500_reports_parse_failure_witness :
  exists f error,
    file demo_request = Some f /\
    (fst (fs_readFile broken_platform (path f) 0) = Throw error \/
     exists buffer,
       fst (fs_readFile broken_platform (path f) 0) = Normal buffer /\
       fst (mammoth_extractRawText broken_platform (FromBuffer buffer)
              (snd (fs_readFile broken_platform (path f) 0)))
       = Throw error) /\
    getProp "error" (json (fst (uploadFile broken_platform demo_request 0)))
    = Some (JSString
              (lit "Failed to parse Word document: " ++ message error)).
Proof.
  apply (uploadFile_500_reports_parse_failure nat broken_platform
           demo_request 0).
  reflexivity.
Defined.

(** * The error handler *)


(** * The structure extractor *)

Module StructureFacts.

Import WordParser.













End StructureFacts.

Import WordParser StructureFacts.

(** X15: only a line of 3 to 99 units can be a heading, whatever the
    upper-casing: a shorter line fails both tests (the numbered pattern
    needs a digit, a full stop and a white-space unit), and a line of 100
    units or more is excluded by both. *)
Theorem isHeading_only_short_lines
    (toUpperCase : jsstring -> jsstring) line :
  _isHeading toUpperCase line = true ->
  3 <= List.length line /\ List.length line < 100.
Proof.
  unfold _isHeading. intros H. apply orb_true_iff in H.
  destruct H as [H|H].
  - apply andb_true_iff in H. destruct H as [H H2].
    apply andb_true_iff in H. destruct H as [H1 _].
    apply Nat.ltb_lt in H1, H2. lia.
  - apply andb_true_iff in H. destruct H as [Ht Hl].
    apply Nat.ltb_lt in Hl. split; [|exact Hl].
    unfold test, numberedHeadingRe in Ht.
    rewrite str_match_anchored in Ht.
    destruct line as [|c [|x [|y s]]]; simpl; try lia; exfalso.
    + discriminate.
    + cbn in Ht. destruct (isDigit c); discriminate.
    + cbn in Ht. destruct (isDigit c); [|discriminate].
      destruct (isDigit x); cbn in Ht;
        destruct (unit_is FULL_STOP x); cbn in Ht;
        try discriminate;
        destruct (unit_is FULL_STOP c); discriminate.
Qed.

Lemma isHeading_only_short_lines_witness :
  3 <= List.length (lit "2. Next") /\ List.length (lit "2. Next") < 100.
Proof.
  apply (isHeading_only_short_lines ascii_upper (lit "2. Next")).
  reflexivity.
Defined.





(** * Line endings *)

Module CrlfFacts.

Lemma trimEnd_snoc u c : isSpace c = true -> trimEnd (u ++ [c]) = trimEnd u.
Proof.
  intros H. unfold trimEnd. rewrite rev_app_distr. simpl. rewrite H.
  reflexivity.
Qed.

Lemma trimStart_snoc b c :
  isSpace c = true ->
  trimStart (b ++ [c]) = trimStart b ++ [c] \/
  (trimStart b = [] /\ trimStart (b ++ [c]) = []).
Proof.
  intros H. induction b as [|x b IH]; simpl.
  - rewrite H. right; auto.
  - destruct (isSpace x); [exact IH|left; reflexivity].
Qed.

Lemma trim_snoc b c : isSpace c = true -> trim (b ++ [c]) = trim b.
Proof.
  intros H. unfold trim.
  destruct (trimStart_snoc b c H) as [E|[E1 E2]].
  - rewrite E. apply trimEnd_snoc. exact H.
  - rewrite E1, E2. reflexivity.
Qed.

(** Piece by piece, the CRLF text splits as the LF text does, but for a
    carriage return at the end of some pieces. *)
Lemma split_crlf s :
  Forall2 (fun a b => a = b \/ a = b ++ [CR])
    (split LF (crlf s)) (split LF s).
Proof.
  induction s as [|c s IH]; simpl.
  - constructor; [left; reflexivity|constructor].
  - destruct (N.eqb c LF) eqn:E.
    + cbn [split]. change (N.eqb CR LF) with false.
      rewrite N.eqb_refl. constructor; [right; reflexivity|exact IH].
    + cbn [split]. rewrite E.
      destruct IH as [|a b la lb R IH]; constructor.
      * left; reflexivity.
      * constructor.
      * destruct R as [->| ->]; [left|right]; reflexivity.
      * exact IH.
Qed.

Lemma lines_of_crlf s : lines_of (crlf s) = lines_of s.
Proof.
  unfold lines_of. f_equal.
  induction (split_crlf s) as [|a b la lb R _ IH]; simpl; [reflexivity|].
  rewrite IH. f_equal. destruct R as [->| ->]; [reflexivity|].
  apply trim_snoc. reflexivity.
Qed.

End CrlfFacts.
Import CrlfFacts.

(** X18: line endings do not matter: a text in which every line feed is
    preceded by a carriage return gives the same tasks as the text with
    bare line feeds. *)
Theorem extractTasksFromText_crlf (s : jsstring) :
  extractTasksFromText (JSString (crlf s))
  = extractTasksFromText (JSString s).
Proof.
  unfold extractTasksFromText. rewrite !extract_string, lines_of_crlf.
  reflexivity.
Qed.
